(** * SatTrack: the map view, the satellite record and its refresh timer

    A shallow embedding of [src/script/map.js]: the [Leaflet] class (the marker
    registry and the map widget it owns) and the [Satellite] class (the
    fetcher and the auto-update timer).  JavaScript objects that are shared by
    reference (the marker objects, which are reachable both from the registry
    and from the widget's layers) live in an explicit store; methods are
    state transformers that return a completion (normal or thrown) together
    with the state they leave behind, because a JavaScript [throw] does not
    undo the assignments made before it.

    [src/unnamed/part_000] is an earlier revision of the same file.  Its
    [addSatellite] differs from the one modelled here in two places: it
    takes the icon from a fixed [icons.satellite] instead of building it
    from [satelliteIndex], and its popup shows the name as it is, without
    [toUpperCase], so a missing name does not make it throw.  The other
    methods modelled here read the same there. *)

From Stdlib Require Import ZArith QArith String Ascii.
From stdpp Require Import base decidable option list gmap strings pretty.

Local Open Scope string_scope.
Local Open Scope list_scope.
Local Open Scope Z_scope.

(** ** JavaScript completions and the state monad the methods run in *)

Module JS.

(** The exceptions the program can raise: [TypeError] is what the engine
    raises on a property read of [undefined]; [Error] is [new Error(msg)];
    [SyntaxError] is what [Response.json()] rejects with. *)
Inductive Exn : Type :=
| TypeError (msg : string)
| Error (msg : string)
| SyntaxError (msg : string).

Inductive Completion (A : Type) : Type :=
| Normal (a : A)
| Throw (e : Exn).
Global Arguments Normal {A} a.
Global Arguments Throw {A} e.

(** What a method hands back: [return this] or a bare [return]. *)
Inductive Ret : Type := This | Undefined.

Definition M (S A : Type) : Type := S → Completion A * S.

Definition ret {S A} (a : A) : M S A := λ s, (Normal a, s).
Definition throw {S A} (e : Exn) : M S A := λ s, (Throw e, s).
Definition bind {S A B} (m : M S A) (k : A → M S B) : M S B :=
  λ s, match m s with
       | (Normal a, s') => k a s'
       | (Throw e, s') => (Throw e, s')
       end.
Definition get {S} : M S S := λ s, (Normal s, s).
Definition gets {S A} (f : S → A) : M S A := λ s, (Normal (f s), s).
Definition modify {S} (f : S → S) : M S () := λ s, (Normal (), f s).

Global Instance M_ret {S} : MRet (M S) := λ A, ret.
Global Instance M_bind {S} : MBind (M S) := λ A B k m, bind m k.

Definition throws {A} (c : Completion A) : Prop :=
  match c with Throw _ => True | Normal _ => False end.

Global Instance throws_dec {A} (c : Completion A) : Decision (throws c) :=
  match c with
  | Normal _ => right (λ H, H)
  | Throw _ => left I
  end.

End JS.

Import JS.

(** [Array.prototype.splice(start, deleteCount)] on the part the program
    uses (no inserted items): a negative [start] counts from the end, and
    both bounds are clamped to the array. *)
Definition splice {A} (start : Z) (deleteCount : Z) (l : list A) : list A :=
  let len := Z.of_nat (length l) in
  let actualStart := if start <? 0 then Z.max (len + start) 0 else Z.min start len in
  let actualCount := Z.min (Z.max deleteCount 0) (len - actualStart) in
  take (Z.to_nat actualStart) l ++ drop (Z.to_nat (actualStart + actualCount)) l.

(** [String.prototype.includes]. *)
Definition includes (s sub : string) : bool :=
  match String.index 0 sub s with Some _ => true | None => false end.

(** [String.prototype.toUpperCase] on the ASCII letters. *)
Definition upper_ascii (c : ascii) : ascii :=
  let n := nat_of_ascii c in
  if ((97 <=? n) && (n <=? 122))%nat then ascii_of_nat (n - 32) else c.

Fixpoint toUpperCase (s : string) : string :=
  match s with
  | EmptyString => EmptyString
  | String c r => String (upper_ascii c) (toUpperCase r)
  end.

(** ** The satellite record *)

(** The JSON body of the position endpoint (the thirteen fields
    [fetchSatellite] reads).  [units] is indexed with [[0]] by the popup
    template, which works on a string and on an array alike. *)
Inductive Units : Type :=
| UnitsString (s : string)
| UnitsArray (l : list string).

Definition units_at0 (u : Units) : option string :=
  match u with
  | UnitsString (String c _) => Some (String c EmptyString)
  | UnitsString EmptyString => None
  | UnitsArray l => head l
  end.

Module Json.
Record t : Type := mk {
  id : Z;
  name : string;
  altitude : Q;
  daynum : Q;
  footprint : Q;
  latitude : Q;
  longitude : Q;
  solar_lat : Q;
  solar_lon : Q;
  timestamp : Q;
  units : Units;
  velocity : Q;
  visibility : string
}.
End Json.

Definition timer_id : Type := nat.

(** A name for an object that a closure captures ([this] and [map] in the
    callback that [autoUpdate] schedules). *)
Definition ref : Type := nat.

(** ** The browser: the timer table and the console

    [setInterval] hands out identifiers from a counter, so an identifier
    that was cleared is not handed out again; [clearInterval] of
    [undefined] or of an identifier that is not active does nothing. *)

Module Browser.

(** The callback [autoUpdate] passes to [setInterval]: fetch the captured
    satellite, then add it to the captured map. *)
Inductive Callback : Type :=
| UpdateTick (satellite : ref) (map : ref).

Record Timer : Type := mkTimer { callback : Callback; delay : Z }.

(** The object built by the [errors] getter. *)
Record ErrorsObject : Type := mkErrors {
  e_id : Z;
  e_url : string;
  e_errorBool : option bool;
  e_errorCode : option Z;
  e_errorText : option string
}.

Inductive ConsoleEntry : Type :=
| Log (e : ErrorsObject)
| Warn (msg : string).

Record t : Type := mk {
  timers : gmap timer_id Timer;
  nextTimerId : timer_id;
  console : list ConsoleEntry
}.

Definition setInterval (cb : Callback) (interval : Z) (b : t) : timer_id * t :=
  (nextTimerId b,
   mk (<[nextTimerId b := mkTimer cb interval]> (timers b))
      (S (nextTimerId b)) (console b)).

Definition clearInterval (i : option timer_id) (b : t) : t :=
  match i with
  | Some k => mk (delete k (timers b)) (nextTimerId b) (console b)
  | None => b
  end.

Definition print (e : ConsoleEntry) (b : t) : t :=
  mk (timers b) (nextTimerId b) (console b ++ [e]).

(** A page that has scheduled nothing yet. *)
Definition fresh : t := mk ∅ 1%nat [].

End Browser.

(** The response [fetch] resolves with.  [ok] is derived from the status as
    the Fetch standard defines it; [body] is [None] when the body is not
    the JSON document the endpoint promises, in which case [json()]
    rejects. *)
Module Response.
Record t : Type := mk {
  status : Z;
  statusText : string;
  body : option Json.t
}.
Definition ok (r : t) : bool := (200 <=? status r) && (status r <=? 299).
End Response.

(** What [await fetch(url)] gives: the promise rejects on a network
    failure and resolves with a response otherwise, whatever its status. *)
Inductive FetchResult : Type :=
| Rejected
| Resolved (r : Response.t).

Module Satellite.

(** The fields of [class Satellite].  Everything but [id] and [url] is
    [undefined] ([None]) until something assigns it. *)
Record t : Type := mk {
  id : Z;
  url : string;
  name : option string;
  altitude : option Q;
  daynum : option Q;
  footprint : option Q;
  latitude : option Q;
  longitude : option Q;
  solar_lat : option Q;
  solar_lon : option Q;
  timestamp : option Q;
  units : option Units;
  velocity : option Q;
  visibility : option string;
  fetchResponse : option Json.t;
  errorBool : option bool;
  errorCode : option Z;
  errorText : option string;
  autoUpdater : option timer_id
}.

(** [constructor(id)]. *)
Definition new (id : Z) : t :=
  {| id := id;
     url := "https://api.wheretheiss.at/v1/satellites/" +:+ pretty id;
     name := None; altitude := None; daynum := None; footprint := None;
     latitude := None; longitude := None; solar_lat := None;
     solar_lon := None; timestamp := None; units := None; velocity := None;
     visibility := None; fetchResponse := None; errorBool := None;
     errorCode := None; errorText := None; autoUpdater := None |}.

(** What a method can reach: the object and the browser. *)
Record State : Type := mkState {
  this : t;
  browser : Browser.t
}.

Definition with_this (f : t → t) (s : State) : State :=
  mkState (f (this s)) (browser s).
Definition with_browser (f : Browser.t → Browser.t) (s : State) : State :=
  mkState (this s) (f (browser s)).

(** [get errors()]. *)
Definition errors (o : t) : Browser.ErrorsObject :=
  Browser.mkErrors (id o) (url o) (errorBool o) (errorCode o) (errorText o).

(** The three assignments of the failure branch. *)
Definition set_error (code : Z) (text : string) (o : t) : t :=
  mk (id o) (url o) (name o) (altitude o) (daynum o) (footprint o)
     (latitude o) (longitude o) (solar_lat o) (solar_lon o) (timestamp o)
     (units o) (velocity o) (visibility o) (fetchResponse o)
     (Some true) (Some code) (Some text) (autoUpdater o).

(** The fourteen assignments of the success branch. *)
Definition set_position (json : Json.t) (o : t) : t :=
  mk (Json.id json) (url o) (Some (Json.name json)) (Some (Json.altitude json))
     (Some (Json.daynum json)) (Some (Json.footprint json))
     (Some (Json.latitude json)) (Some (Json.longitude json))
     (Some (Json.solar_lat json)) (Some (Json.solar_lon json))
     (Some (Json.timestamp json)) (Some (Json.units json))
     (Some (Json.velocity json)) (Some (Json.visibility json)) (Some json)
     (errorBool o) (errorCode o) (errorText o) (autoUpdater o).

Definition set_autoUpdater (i : timer_id) (o : t) : t :=
  mk (id o) (url o) (name o) (altitude o) (daynum o) (footprint o)
     (latitude o) (longitude o) (solar_lat o) (solar_lon o) (timestamp o)
     (units o) (velocity o) (visibility o) (fetchResponse o)
     (errorBool o) (errorCode o) (errorText o) (Some i).

(** [async fetchSatellite()], given what [await fetch(this.url)] gave. *)
Definition fetchSatellite (fetched : FetchResult) : M State Ret :=
  match fetched with
  | Rejected => throw (TypeError "Failed to fetch")
  | Resolved result =>
    if negb (Response.ok result) then
      modify (with_this (set_error (Response.status result) (Response.statusText result)));;
      e ← gets (λ s, errors (this s));
      modify (with_browser (Browser.print (Browser.Log e)));;
      mret Undefined
    else
      match Response.body result with
      | None => throw (SyntaxError "Unexpected token in JSON")
      | Some json =>
        modify (with_this (set_position json));;
        mret This
      end
  end.

(** The third guard, [!typeof trueOrFalse === 'boolean']: [!] applies to
    the string [typeof] returns, and the boolean it yields is compared
    with a string by [===]. *)
Definition typeof (b : bool) : string := "boolean".
Definition truthy_string (s : string) : bool := negb (String.eqb s "").
Definition strict_eq_bool_string (b : bool) (s : string) : bool := false.

(** [autoUpdate(trueOrFalse, interval, map)] on the object named [self];
    [map] is [None] when the argument is missing. *)
Definition autoUpdate (self : ref) (trueOrFalse : bool) (interval : Z)
    (map : option ref) : M State Ret :=
  (if interval <? 1000
   then throw (Error "Interval must be at least 1000 milliseconds.")
   else mret ());;
  m ← (match map with
       | None => throw (Error "Map is not given.")
       | Some m => mret m
       end);
  (if strict_eq_bool_string (negb (truthy_string (typeof trueOrFalse))) "boolean"
   then throw (Error "Argument must be a boolean.")
   else mret ());;
  if negb trueOrFalse then
    modify (λ s, with_browser (Browser.clearInterval (autoUpdater (this s))) s);;
    mret This
  else
    (if trueOrFalse then
       modify (λ s, with_browser (Browser.clearInterval (autoUpdater (this s))) s);;
       modify (with_browser (Browser.print (Browser.Warn
         ("Auto-update already turned on. Restarting at " +:+ pretty interval +:+ "ms."))))
     else mret ());;
    i ← (λ s, let '(i, b) := Browser.setInterval (Browser.UpdateTick self m)
                               interval (browser s) in
              (Normal i, with_browser (λ _, b) s));
    modify (with_this (set_autoUpdater i));;
    mret This.

End Satellite.

(** ** The mapping library (external collaborator)

    The Leaflet library is not part of the repository; the class below only
    consumes [L.marker], [L.icon], [addTo], [setIcon], [bindPopup],
    [getLatLng], [removeLayer], [setView], [getZoom], [setMinZoom] and
    [setMaxZoom].  Each is modelled by its effect on the objects it touches.
    Marker objects are shared between the registry and the widget, so they
    are kept in a store and referred to by handle. *)

Module L.

Record LatLng : Type := latLng { lat : Q; lng : Q }.

Record Icon : Type := icon {
  iconUrl : string;
  iconSize : Z * Z;
  zIndexOffset : Z
}.

(** What the popup template of [addSatellite] interpolates, in order.  The
    rendering of numbers and dates to text ([toFixed], [toLocaleString])
    is not modelled; the values are kept. *)
Record Popup : Type := popup {
  p_name : string;
  p_latitude : Q;
  p_longitude : Q;
  p_altitude : Q;
  p_velocity : Q;
  p_unit : option string;
  p_visibility : option string;
  p_timestamp : option Q
}.

Record Marker : Type := mkMarker {
  _latlng : LatLng;
  m_icon : Icon;
  title : option string;
  riseOnHover : bool;
  riseOffset : Z;
  _popup : option Popup
}.

Definition handle : Type := nat.

(** The store of marker objects: [next] is the first handle not yet
    allocated. *)
Record Store : Type := mkStore {
  cells : handle → Marker;
  next : handle
}.

(** A store in which nothing is allocated; a cell that was never
    allocated reads as a blank marker, and no handle refers to one. *)
Definition blank : Marker :=
  mkMarker (latLng 0 0) (icon "" (0, 0) 0) None false 0 None.
Definition empty : Store := mkStore (λ _, blank) 0%nat.

Record TileLayer : Type := tileLayer { urlTemplate : string; attribution : string }.

Record Map : Type := mkMap {
  center : LatLng;
  zoom : Z;
  minZoom : option Z;
  maxZoom : option Z;
  tiles : list TileLayer;
  layers : list handle
}.

(** [L.marker([lat, lon], options)]: the coordinates go through
    [L.latLng], which throws on a coordinate that is not a number. *)
Definition marker (lat lon : option Q) (i : Icon) (t : option string)
    (rise : bool) (offset : Z) (st : Store) : Completion handle * Store :=
  match lat, lon with
  | Some la, Some lo =>
      let h := next st in
      let m := mkMarker (latLng la lo) i t rise offset None in
      (Normal h,
       mkStore (λ k, if decide (k = h) then m else cells st k) (S h))
  | _, _ => (Throw (Error "Invalid LatLng object"), st)
  end.

Definition update (h : handle) (f : Marker → Marker) (st : Store) : Store :=
  mkStore (λ k, if decide (k = h) then f (cells st k) else cells st k) (next st).

Definition setIcon (h : handle) (i : Icon) : Store → Store :=
  update h (λ m, mkMarker (_latlng m) i (title m) (riseOnHover m) (riseOffset m) (_popup m)).

Definition bindPopup (h : handle) (p : Popup) : Store → Store :=
  update h (λ m, mkMarker (_latlng m) (m_icon m) (title m) (riseOnHover m) (riseOffset m) (Some p)).

Definition getLatLng (h : handle) (st : Store) : LatLng := _latlng (cells st h).

(** [layer.addTo(map)]: a layer already on the map is not added again. *)
Definition addLayer (h : handle) (m : Map) : Map :=
  mkMap (center m) (zoom m) (minZoom m) (maxZoom m) (tiles m)
        (if decide (h ∈ layers m) then layers m else layers m ++ [h]).

Definition removeLayer (h : handle) (m : Map) : Map :=
  mkMap (center m) (zoom m) (minZoom m) (maxZoom m) (tiles m)
        (filter (λ k, k ≠ h) (layers m)).

Definition addTileLayer (t : TileLayer) (m : Map) : Map :=
  mkMap (center m) (zoom m) (minZoom m) (maxZoom m) (tiles m ++ [t]) (layers m).

Definition setView (c : LatLng) (z : Z) (m : Map) : Map :=
  mkMap c z (minZoom m) (maxZoom m) (tiles m) (layers m).

Definition getZoom (m : Map) : Z := zoom m.

(** [setMinZoom]/[setMaxZoom] record the limit and pull a zoom that is
    outside it back onto it. *)
Definition setMinZoom (z : Z) (m : Map) : Map :=
  mkMap (center m) (Z.max (zoom m) z) (Some z) (maxZoom m) (tiles m) (layers m).

Definition setMaxZoom (z : Z) (m : Map) : Map :=
  mkMap (center m) (Z.min (zoom m) z) (minZoom m) (Some z) (tiles m) (layers m).

(** [L.map('map').setView(c, z)]: a widget with nothing on it yet. *)
Definition map (c : LatLng) (z : Z) : Map := mkMap c z None None [] [].

End L.

(** ** [class Leaflet] *)

Module Leaflet.

(** An entry of the [markers] array: [{id, marker}]. *)
Record MarkerRecord : Type := mkRecord { id : Z; marker : L.handle }.

(** The fields of the object.  [icons] holds the constant [dot] icon. *)
Record t : Type := mk {
  map : L.Map;
  markers : list MarkerRecord;
  satelliteIndex : Z
}.

Definition icons_dot : L.Icon :=
  L.icon "./public/dot.png" (20, 20) 1000.

(** What a method can reach: the object, the marker objects, and
    [window.location.href]. *)
Record State : Type := mkState {
  this : t;
  heap : L.Store;
  href : string
}.

Definition with_this (f : t → t) (s : State) : State :=
  mkState (f (this s)) (heap s) (href s).
Definition with_heap (f : L.Store → L.Store) (s : State) : State :=
  mkState (this s) (f (heap s)) (href s).
Definition with_map (f : L.Map → L.Map) : State → State :=
  with_this (λ o, mk (f (map o)) (markers o) (satelliteIndex o)).
Definition with_markers (f : list MarkerRecord → list MarkerRecord) : State → State :=
  with_this (λ o, mk (map o) (f (markers o)) (satelliteIndex o)).

(** [this.markers.find(m => m.id === i)] and [findIndex]. *)
Definition find (i : Z) (l : list MarkerRecord) : option MarkerRecord :=
  snd <$> list_find (λ m, id m = i) l.

Definition findIndex (i : Z) (l : list MarkerRecord) : Z :=
  match list_find (λ m, id m = i) l with
  | Some (k, _) => Z.of_nat k
  | None => -1
  end.

(** Reading [.marker] off the result of [find]: a [TypeError] when the
    result is [undefined]. *)
Definition get_marker (r : option MarkerRecord) : M State L.handle :=
  match r with
  | Some m => mret (marker m)
  | None => throw (TypeError "Cannot read properties of undefined (reading 'marker')")
  end.

(** A marker handle is an object, hence truthy. *)
Definition truthy (h : L.handle) : bool := true.

Definition satelliteIconUrl (href : string) (index : Z) : string :=
  if includes href "github"
  then "SatTrack/public/satellite" +:+ pretty index +:+ ".png"
  else "../public/satellite" +:+ pretty index +:+ ".png".

Definition satelliteIcon (href : string) (index : Z) : L.Icon :=
  L.icon (satelliteIconUrl href index) (50, 50) (-1000).

(** [#initializeMap(lat, lon, zoom)] through the constructor (the
    anchors of the attribution text are left out). *)
Definition new (lat lon : Q) (zoom : Z) (store : L.Store) (href : string) : State :=
  let m0 := L.map (L.latLng lat lon) zoom in
  let m1 := L.addTileLayer
              (L.tileLayer "https://{s}.tile.openstreetmap.org/{z}/{x}/{y}.png"
                 "&copy; OpenStreetMap contributors; Satellite icons created by Freepik - Flaticon")
              m0 in
  let m2 := L.setMaxZoom 18 (L.setMinZoom 2 m1) in
  mkState (mk m2 [] 0) store href.

Definition replaceSatelliteWithDot (satellite : Satellite.t) : M State Ret :=
  ms ← gets (λ s, filter (λ m, id m = Satellite.id satellite) (markers (this s)));
  modify (with_heap (λ h, foldl (λ h m, L.setIcon (marker m) icons_dot h) h ms));;
  mret This.

(** The template literal handed to [bindPopup], evaluated left to right;
    a method call or an index on [undefined] throws. *)
Definition popupContent (satellite : Satellite.t) : M State L.Popup :=
  match Satellite.name satellite with
  | None => throw (TypeError "Cannot read properties of undefined (reading 'toUpperCase')")
  | Some n =>
    match Satellite.latitude satellite, Satellite.longitude satellite,
          Satellite.altitude satellite, Satellite.velocity satellite with
    | Some la, Some lo, Some al, Some ve =>
      match Satellite.units satellite with
      | None => throw (TypeError "Cannot read properties of undefined (reading '0')")
      | Some u =>
        mret (L.popup (toUpperCase n) la lo al ve (units_at0 u)
                (Satellite.visibility satellite) (Satellite.timestamp satellite))
      end
    | _, _, _, _ => throw (TypeError "Cannot read properties of undefined (reading 'toFixed')")
    end
  end.

Definition addSatellite (satellite : Satellite.t) : M State Ret :=
  found ← gets (λ s, find (Satellite.id satellite) (markers (this s)));
  (if found is Some _ then replaceSatelliteWithDot satellite else mret This);;
  ic ← gets (λ s, satelliteIcon (href s) (satelliteIndex (this s)));
  mapMarker ← (λ s, let '(c, h) := L.marker (Satellite.latitude satellite)
                                     (Satellite.longitude satellite) ic
                                     (Satellite.name satellite) true 250 (heap s) in
                    (c, with_heap (λ _, h) s));
  modify (with_map (L.addLayer mapMarker));;
  content ← popupContent satellite;
  modify (with_heap (L.bindPopup mapMarker content));;
  modify (with_markers (λ l, l ++ [mkRecord (Satellite.id satellite) mapMarker]));;
  mret This.

Definition removeSatellite (satellite : Satellite.t) : M State Ret :=
  found ← gets (λ s, find (Satellite.id satellite) (markers (this s)));
  h ← get_marker found;
  modify (with_map (L.removeLayer h));;
  ix ← gets (λ s, findIndex (Satellite.id satellite) (markers (this s)));
  modify (with_markers (splice ix 1));;
  mret This.

Definition zoomToSatellite (satellite : Satellite.t) : M State Ret :=
  found ← gets (λ s, find (Satellite.id satellite) (markers (this s)));
  h ← get_marker found;
  (if negb (truthy h)
   then throw (Error "Satellite not found. Could not reposition map.")
   else mret ());;
  found' ← gets (λ s, find (Satellite.id satellite) (markers (this s)));
  h' ← get_marker found';
  modify (λ s, with_map (L.setView (L.getLatLng h' (heap s)) (L.getZoom (map (this s)))) s);;
  mret This.

End Leaflet.

(** ** The refresh loop as seen from the timer table *)

(** The satellite whose tick a timer runs. *)
Definition owner (t : Browser.Timer) : ref :=
  match Browser.callback t with Browser.UpdateTick s _ => s end.

(** The active timers that tick for the satellite [self]. *)
Definition tick_streams (self : ref) (b : Browser.t) : gmap timer_id Browser.Timer :=
  filter (λ kt, owner kt.2 = self) (Browser.timers b).

(** The loop is running when [autoUpdater] names an active timer, and
    stopped otherwise. *)
Definition running (s : Satellite.State) : bool :=
  match Satellite.autoUpdater (Satellite.this s) with
  | Some i => bool_decide (is_Some (Browser.timers (Satellite.browser s) !! i))
  | None => false
  end.

(** Every active timer that ticks for [self] is the one [autoUpdater]
    remembers.  It holds of a new satellite on a page where nothing ticks
    for it yet. *)
Definition loop_inv (self : ref) (s : Satellite.State) : Prop :=
  map_Forall (λ i t, owner t = self →
                     Satellite.autoUpdater (Satellite.this s) = Some i)
             (Browser.timers (Satellite.browser s)).

(** What can happen to a satellite object between two observations: a call
    of [autoUpdate], or a fetch (a tick of its timer, or a direct call). *)
Inductive Event : Type :=
| AutoUpdate (trueOrFalse : bool) (interval : Z) (map : option ref)
| Fetch (fetched : FetchResult).

Definition step (self : ref) (s : Satellite.State) (e : Event) : Satellite.State :=
  match e with
  | AutoUpdate b i m => snd (Satellite.autoUpdate self b i m s)
  | Fetch f => snd (Satellite.fetchSatellite f s)
  end.

Definition run (self : ref) (es : list Event) (s : Satellite.State) : Satellite.State :=
  foldl (step self) s es.

(** ** Sample data *)

Definition iss_json : Json.t :=
  Json.mk 25544 "iss" (420 # 1) (2460000 # 1) (4500 # 1) (512 # 10) (-1 # 10)
          (0 # 1) (0 # 1) (1700000000 # 1) (UnitsString "kilometers")
          (27000 # 1) "daylight".

Definition page0 : Satellite.State :=
  Satellite.mkState (Satellite.new 25544) Browser.fresh.

(** The satellite after one successful fetch. *)
Definition page1 : Satellite.State :=
  snd (Satellite.fetchSatellite (Resolved (Response.mk 200 "OK" (Some iss_json))) page0).

Definition iss : Satellite.t := Satellite.this page1.

Definition not_found : Response.t := Response.mk 404 "Not Found" None.

(** The loop of [iss] (object 0) started on the view (object 0) at 15 s. *)
Definition page2 : Satellite.State :=
  snd (Satellite.autoUpdate 0%nat true 15000 (Some 0%nat) page1).

(** ** The registry as seen from outside *)

(** The records of the registry that carry the identifier [i]. *)
Definition records_for (i : Z) (l : list Leaflet.MarkerRecord) : list Leaflet.MarkerRecord :=
  filter (λ r, Leaflet.id r = i) l.

(** The icon a record's marker currently shows. *)
Definition visual (s : Leaflet.State) (r : Leaflet.MarkerRecord) : L.Icon :=
  L.m_icon (L.cells (Leaflet.heap s) (Leaflet.marker r)).

(** Every handle in the registry refers to an allocated marker.  True of a
    new view and kept by every method. *)
Definition well_formed (s : Leaflet.State) : Prop :=
  Forall (λ r, (Leaflet.marker r < L.next (Leaflet.heap s))%nat)
         (Leaflet.markers (Leaflet.this s)).

(** The satellite has every field that [addSatellite] dereferences. *)
Definition drawable (x : Satellite.t) : bool :=
  bool_decide (is_Some (Satellite.latitude x)) &&
  bool_decide (is_Some (Satellite.longitude x)) &&
  bool_decide (is_Some (Satellite.name x)) &&
  bool_decide (is_Some (Satellite.altitude x)) &&
  bool_decide (is_Some (Satellite.velocity x)) &&
  bool_decide (is_Some (Satellite.units x)).

(** [map.addSatellite(x1); map.addSatellite(x2); ...]: a throw ends the
    sequence. *)
Fixpoint addAll (xs : list Satellite.t) : M Leaflet.State Ret :=
  match xs with
  | [] => mret This
  | x :: r => Leaflet.addSatellite x;; addAll r
  end.

(** The view [mapControl] builds, before anything is added to it. *)
Definition view0 : Leaflet.State :=
  Leaflet.new (207502 # 10000) (1147655 # 10000) 3 L.empty "http://localhost/src/index.html".

(** One tick of the refresh timer: [await this.fetchSatellite()], whose
    value is dropped, then [map.addSatellite(this)]. *)
Definition updateTick (fetched : FetchResult)
    (sv : Satellite.State * Leaflet.State) : Completion Ret * (Satellite.State * Leaflet.State) :=
  match Satellite.fetchSatellite fetched (fst sv) with
  | (Throw e, s') => (Throw e, (s', snd sv))
  | (Normal _, s') =>
      let '(c, v') := Leaflet.addSatellite (Satellite.this s') (snd sv) in
      (c, (s', v'))
  end.

(** The state a successful start leaves behind. *)
Definition started (self : ref) (interval : Z) (m : ref) (s : Satellite.State) : Satellite.State :=
  let b1 := Browser.clearInterval (Satellite.autoUpdater (Satellite.this s)) (Satellite.browser s) in
  let b2 := Browser.print (Browser.Warn
              ("Auto-update already turned on. Restarting at " +:+ pretty interval +:+ "ms.")) b1 in
  Satellite.mkState
    (Satellite.set_autoUpdater (Browser.nextTimerId b2) (Satellite.this s))
    (snd (Browser.setInterval (Browser.UpdateTick self m) interval b2)).

(** The store after [replaceSatelliteWithDot]: [setIcon] on the marker of
    every record in [ms], in order. *)
Definition demote (ms : list Leaflet.MarkerRecord) (h : L.Store) : L.Store :=
  foldl (λ h m, L.setIcon (Leaflet.marker m) Leaflet.icons_dot h) h ms.

(** The newest record is the last entry and shows [icon], which is not
    the dot; every older record for [i] shows the dot. *)
Definition trail (i : Z) (icon : L.Icon) (s : Leaflet.State) : Prop :=
  ∃ older newest,
    Leaflet.markers (Leaflet.this s) = older ++ [newest] ∧
    Leaflet.id newest = i ∧
    visual s newest = icon ∧
    visual s newest ≠ Leaflet.icons_dot ∧
    Forall (λ r, Leaflet.id r = i → visual s r = Leaflet.icons_dot) older.

(** The view after the first and after the second [addSatellite(iss)]. *)
Definition view1 : Leaflet.State := snd (Leaflet.addSatellite iss view0).
Definition view2 : Leaflet.State := snd (Leaflet.addSatellite iss view1).

(** A satellite the view has never seen. *)
Definition hubble : Satellite.t := Satellite.new 20580.

(** ** Further code of the file: [destroy], the page script and its listeners *)

(** [Satellite.destroy(map)]: [map.removeSatellite(this)], then
    [delete this], which has no effect on the object.  The method has no
    [return]. *)
Definition destroy (sv : Satellite.State * Leaflet.State)
    : Completion Ret * (Satellite.State * Leaflet.State) :=
  match Leaflet.removeSatellite (Satellite.this (fst sv)) (snd sv) with
  | (Throw e, v') => (Throw e, (fst sv, v'))
  | (Normal _, v') => (Normal Undefined, (fst sv, v'))
  end.

(** [marker.setIcon(i)] on the marker object itself. *)
Definition with_icon (i : L.Icon) (m : L.Marker) : L.Marker :=
  L.mkMarker (L._latlng m) i (L.title m) (L.riseOnHover m) (L.riseOffset m) (L._popup m).

(** The handles of the records the registry holds for [i]. *)
Definition handles_for (i : Z) (s : Leaflet.State) : list L.handle :=
  Leaflet.marker <$> records_for i (Leaflet.markers (Leaflet.this s)).

(** The widget shows exactly the markers of the registry, in the order of
    the registry, no marker object is recorded twice, and every recorded
    handle is allocated. *)
Definition view_inv (s : Leaflet.State) : Prop :=
  well_formed s ∧
  NoDup (Leaflet.marker <$> Leaflet.markers (Leaflet.this s)) ∧
  L.layers (Leaflet.map (Leaflet.this s)) = Leaflet.marker <$> Leaflet.markers (Leaflet.this s).

(** Calls on a view, one after the other; a call that throws leaves the
    state it had reached. *)
Inductive ViewCall : Type :=
| AddSatellite (x : Satellite.t)
| ReplaceSatelliteWithDot (x : Satellite.t)
| RemoveSatellite (x : Satellite.t)
| ZoomToSatellite (x : Satellite.t).

Definition call (s : Leaflet.State) (c : ViewCall) : Leaflet.State :=
  snd (match c with
       | AddSatellite x => Leaflet.addSatellite x s
       | ReplaceSatelliteWithDot x => Leaflet.replaceSatelliteWithDot x s
       | RemoveSatellite x => Leaflet.removeSatellite x s
       | ZoomToSatellite x => Leaflet.zoomToSatellite x s
       end).

Definition calls (cs : list ViewCall) (s : Leaflet.State) : Leaflet.State :=
  foldl call s cs.

(** The calls whose [addSatellite] arguments have every field the method
    dereferences. *)
Definition drawable_call (c : ViewCall) : Prop :=
  match c with
  | AddSatellite x => drawable x = true
  | _ => True
  end.

(** Every active timer, and the timer [autoUpdater] names, was handed out
    by the counter. *)
Definition ids_fresh (s : Satellite.State) : Prop :=
  map_Forall (λ i _, (i < Browser.nextTimerId (Satellite.browser s))%nat)
             (Browser.timers (Satellite.browser s)) ∧
  ∀ i, Satellite.autoUpdater (Satellite.this s) = Some i →
       (i < Browser.nextTimerId (Satellite.browser s))%nat.

(** *** The page: the DOM elements the script touches *)

Module Dom.

(** The callbacks the script registers with [addEventListener]. *)
Inductive Handler : Type :=
| UpdateTimeChange
| PickerLeftClick
| PickerRightClick.

Record Listener : Type := mkListener {
  element : string;
  event : string;
  handler : Handler
}.

(** The two callbacks [domAutoUpdate] schedules, with what they capture:
    the reset ([setTimeout], 5000 ms) and the poll that cancels it
    ([setInterval], 20 ms). *)
Inductive PageTimer : Type :=
| ResetUpdater (satellite map : ref)
| InterruptUpdateReset (resetUpdater : timer_id).

(** The elements are taken to exist.  [value] is the value of the number
    input [#updateTime], in whole seconds.  [src] is the source of the
    picker image as it was written (the browser resolves it against the
    address of the page, which keeps its last characters, the only ones
    the script reads).  The timers of the page script
    live in a table of their own, keyed by identifiers drawn from the
    browser's one counter; so do the [console.error] lines and the
    objects given to [console.log]. *)
Record t : Type := mk {
  value : Z;
  classList : list string;
  src : string;
  timers : gmap timer_id (PageTimer * Z);
  console_error : list string;
  console_log : list Satellite.t;
  listeners : list Listener
}.

Definition set_value (v : Z) (d : t) : t :=
  mk v (classList d) (src d) (timers d) (console_error d) (console_log d) (listeners d).

(** [classList.add(tokens...)]: a token already present is not repeated. *)
Definition classList_add (tokens : list string) (d : t) : t :=
  mk (value d)
     (foldl (λ l tok, if decide (tok ∈ l) then l else l ++ [tok]) (classList d) tokens)
     (src d) (timers d) (console_error d) (console_log d) (listeners d).

Definition set_src (u : string) (d : t) : t :=
  mk (value d) (classList d) u (timers d) (console_error d) (console_log d) (listeners d).

Definition with_timers (f : gmap timer_id (PageTimer * Z) → gmap timer_id (PageTimer * Z))
    (d : t) : t :=
  mk (value d) (classList d) (src d) (f (timers d)) (console_error d) (console_log d)
     (listeners d).

Definition print_error (msg : string) (d : t) : t :=
  mk (value d) (classList d) (src d) (timers d) (console_error d ++ [msg]) (console_log d)
     (listeners d).

Definition print_log (o : Satellite.t) (d : t) : t :=
  mk (value d) (classList d) (src d) (timers d) (console_error d) (console_log d ++ [o])
     (listeners d).

Definition addEventListener (e ev : string) (h : Handler) (d : t) : t :=
  mk (value d) (classList d) (src d) (timers d) (console_error d) (console_log d)
     (listeners d ++ [mkListener e ev h]).

(** A page on which the script has not run yet. *)
Definition initial (v : Z) (picker : string) : t := mk v [] picker ∅ [] [] [].

End Dom.

Module Page.

(** The one satellite, the one view and the document of the page. *)
Record t : Type := mk {
  satellite : Satellite.State;
  view : Leaflet.State;
  dom : Dom.t
}.

Definition with_dom (f : Dom.t → Dom.t) (p : t) : t :=
  mk (satellite p) (view p) (f (dom p)).

Definition lift_satellite {A} (m : M Satellite.State A) : M t A :=
  λ p, let '(c, s') := m (satellite p) in (c, mk s' (view p) (dom p)).

Definition lift_view {A} (m : M Leaflet.State A) : M t A :=
  λ p, let '(c, v') := m (view p) in (c, mk (satellite p) v' (dom p)).

(** [setTimeout]/[setInterval] of a page callback: the identifier comes
    from the browser's counter. *)
Definition setTimer (cb : Dom.PageTimer) (delay : Z) : M t timer_id :=
  λ p, let b := Satellite.browser (satellite p) in
       let i := Browser.nextTimerId b in
       (Normal i,
        mk (Satellite.with_browser
              (λ b, Browser.mk (Browser.timers b) (S (Browser.nextTimerId b)) (Browser.console b))
              (satellite p))
           (view p)
           (Dom.with_timers (insert i (cb, delay)) (dom p))).

(** [clearTimeout]/[clearInterval] of a page callback. *)
Definition clearTimer (i : timer_id) : M t () :=
  modify (with_dom (Dom.with_timers (delete i))).

End Page.

(** [domAutoUpdate(domButton, interval, satellite, map)]: [domButton] is
    the change event of [#updateTime], whose target is the input of the
    page. *)
Definition domAutoUpdate (interval : Z) (satellite map : ref) : M Page.t Ret :=
  let interval := interval * 1000 in
  if (interval >? 60000) || (interval <? 5000) then
    modify (Page.with_dom (Dom.classList_add ["needs-validation"; "was-validated"]));;
    resetUpdater ← Page.setTimer (Dom.ResetUpdater satellite map) 5000;
    _ ← Page.setTimer (Dom.InterruptUpdateReset resetUpdater) 20;
    modify (Page.with_dom (Dom.print_error
      "Update interval must be between 1 and 60 seconds. Defaulting to 15 seconds."));;
    mret Undefined
  else
    Page.lift_satellite (Satellite.autoUpdate satellite true interval (Some map));;
    mret Undefined.

(** The change listener of [#updateTime] in [mapControl]. *)
Definition updateTime_change (satellite map : ref) : M Page.t Ret :=
  v ← gets (λ p, Dom.value (Page.dom p));
  domAutoUpdate v satellite map.

(** A page timer fires.  The reset is a timeout, so it leaves the table
    when it runs; it writes 15 into the input and passes the value it
    reads back to [autoUpdate].  The poll clears the reset and itself
    once the input is strictly between 5 and 60. *)
Definition fire (i : timer_id) : M Page.t Ret :=
  t ← gets (λ p, Dom.timers (Page.dom p) !! i);
  match t with
  | None => mret Undefined
  | Some (Dom.ResetUpdater satellite map, _) =>
      Page.clearTimer i;;
      modify (Page.with_dom (Dom.set_value 15));;
      v ← gets (λ p, Dom.value (Page.dom p));
      Page.lift_satellite (Satellite.autoUpdate satellite true v (Some map));;
      mret Undefined
  | Some (Dom.InterruptUpdateReset resetUpdater, _) =>
      v ← gets (λ p, Dom.value (Page.dom p));
      (if (v <? 60) && (v >? 5)
       then Page.clearTimer resetUpdater;; Page.clearTimer i
       else mret ());;
      mret Undefined
  end.

(** The change listener of [#updateTime] in the earlier revision
    ([main] of [src/unnamed/part_000]). *)
Definition main_updateTime_change (satellite map : ref) : M Page.t Ret :=
  v ← gets (λ p, Dom.value (Page.dom p));
  (if (v >? 60) || (v <? 5)
   then modify (Page.with_dom (Dom.set_value 15));;
        modify (Page.with_dom (Dom.print_error
          "Interval must be between 1 and 60 seconds. Defaulting to 15 seconds."))
   else mret ());;
  v' ← gets (λ p, Dom.value (Page.dom p));
  Page.lift_satellite (Satellite.autoUpdate satellite true (v' * 1000) (Some map));;
  mret Undefined.

(** *** [changeSatellite] *)

(** [s.charAt(i)]: the empty string ([None]) outside the string. *)
Definition charAt (s : string) (i : Z) : option ascii :=
  if i <? 0 then None else String.get (Z.to_nat i) s.

(** [parseInt] of what [charAt] returns: a decimal digit gives its value,
    anything else (and the empty string) gives [NaN] ([None]). *)
Definition parseInt (c : option ascii) : option Z :=
  match c with
  | Some a =>
      let n := Z.of_nat (nat_of_ascii a) in
      if (48 <=? n) && (n <=? 57) then Some (n - 48) else None
  | None => None
  end.

Definition currentSatelliteNumber (src : string) : option Z :=
  parseInt (charAt src (Z.of_nat (String.length src) - 5)).

(** Lines 285 to 287 on a number that is not [NaN]. *)
Definition newSatelliteNumber (current : Z) (leftOrRight : string) : Z :=
  let n := if String.eqb leftOrRight "left" then current - 1 else current + 1 in
  let n := if n >? 5 then 0 else n in
  if n <? 0 then 5 else n.

(** A number in a template literal. *)
Definition show_number (n : option Z) : string :=
  match n with Some z => pretty z | None => "NaN" end.

(** [changeSatellite(map, leftOrRight)].  A [NaN] passes both comparisons
    untouched.  The braceless [if] after the comment guards the
    assignment to [satelliteIndex].  The field [satelliteIndex] of the
    model holds integers, so the one run that would store [NaN] in it (on
    a github address, with a picker source that has no digit five
    characters from its end) is outside the model: [None]. *)
Definition changeSatellite (leftOrRight : string) (p : Page.t)
    : option (Completion Ret * Page.t) :=
  let current := currentSatelliteNumber (Dom.src (Page.dom p)) in
  let new := (λ c, newSatelliteNumber c leftOrRight) <$> current in
  let github := includes (Leaflet.href (Page.view p)) "github" in
  let p1 := Page.with_dom
              (Dom.set_src (if github
                            then "SatTrack/public/satellite" +:+ show_number new +:+ ".png"
                            else "../public/satellite" +:+ show_number new +:+ ".png")) p in
  p2 ← (if github
        then (λ n, Page.mk (Page.satellite p1)
                     (Leaflet.with_this
                        (λ o, Leaflet.mk (Leaflet.map o) (Leaflet.markers o) n) (Page.view p1))
                     (Page.dom p1)) <$> new
        else Some p1);
  Some (Page.lift_view
          (h ← Leaflet.get_marker (last (Leaflet.markers (Leaflet.this (Page.view p2))));
           modify (Leaflet.with_heap
                     (L.setIcon h (L.icon ("../public/satellite" +:+ show_number new +:+ ".png")
                                     (50, 50) (-1000))));;
           mret Undefined) p2).

(** *** [mapControl] *)

(** [map.addSatellite(undefined)]: on an empty registry the callback of
    [find] never runs and the first read of the argument is
    [satellite.latitude]; otherwise the callback reads [satellite.id]. *)
Definition addSatellite_undefined : M Leaflet.State Ret :=
  ms ← gets (λ s, Leaflet.markers (Leaflet.this s));
  match ms with
  | [] => throw (TypeError "Cannot read properties of undefined (reading 'latitude')")
  | _ => throw (TypeError "Cannot read properties of undefined (reading 'id')")
  end.

(** [mapControl()], given what the page is before it runs (the browser,
    the marker store, the address, the document) and what the one
    [fetch] gives.  The satellite is object 0 and the view is object 0. *)
Definition mapControl (fetched : FetchResult) (b : Browser.t) (store : L.Store)
    (href : string) (d : Dom.t) : Completion Ret * Page.t :=
  let map := Leaflet.new (207502 # 10000) (1147655 # 10000) 3 store href in
  let p0 := Page.mk (Satellite.mkState (Satellite.new 25544) b) map d in
  (iss ← Page.lift_satellite (Satellite.fetchSatellite fetched);
   match iss with
   | Undefined =>
       Page.lift_view addSatellite_undefined
   | This =>
       x ← gets (λ p, Satellite.this (Page.satellite p));
       Page.lift_view (Leaflet.addSatellite x);;
       x ← gets (λ p, Satellite.this (Page.satellite p));
       Page.lift_view (Leaflet.zoomToSatellite x);;
       Page.lift_satellite (Satellite.autoUpdate 0%nat true 15000 (Some 0%nat));;
       x ← gets (λ p, Satellite.this (Page.satellite p));
       modify (Page.with_dom (Dom.print_log x));;
       modify (Page.with_dom (Dom.addEventListener "updateTime" "change" Dom.UpdateTimeChange));;
       modify (Page.with_dom (Dom.addEventListener "satellitePickerLeft" "click" Dom.PickerLeftClick));;
       modify (Page.with_dom (Dom.addEventListener "satellitePickerRight" "click" Dom.PickerRightClick));;
       mret Undefined
   end) p0.

(** A satellite object that has a position but no name (a response body
    without the [name] field would leave it so). *)
Definition nameless : Satellite.t :=
  Satellite.mk 25544 (Satellite.url iss) None (Satellite.altitude iss) (Satellite.daynum iss)
    (Satellite.footprint iss) (Satellite.latitude iss) (Satellite.longitude iss)
    (Satellite.solar_lat iss) (Satellite.solar_lon iss) (Satellite.timestamp iss)
    (Satellite.units iss) (Satellite.velocity iss) (Satellite.visibility iss)
    None None None None None.

(** A second satellite, after one successful fetch. *)
Definition hubble_json : Json.t :=
  Json.mk 20580 "hst" (540 # 1) (2460000 # 1) (4700 # 1) (-285 # 10) (1203 # 10)
          (0 # 1) (0 # 1) (1700000000 # 1) (UnitsString "kilometers")
          (27300 # 1) "eclipsed".

Definition hubble_seen : Satellite.t := Satellite.set_position hubble_json hubble.

(** The page of [mapControl] after the first marker was drawn and the
    loop was started, served from a local address, and the same page
    served from a github address. *)
Definition page_local : Page.t :=
  Page.mk page2 view1 (Dom.initial 15 "http://localhost/public/satellite0.png").

Definition page_github : Page.t :=
  Page.mk page2
    (snd (Leaflet.addSatellite iss
            (Leaflet.new (207502 # 10000) (1147655 # 10000) 3 L.empty
               "https://heaveria-ns.github.io/SatTrack/")))
    (Dom.initial 15 "https://heaveria-ns.github.io/SatTrack/public/satellite0.png").

(** The local page after the user typed 3 into the interval input and
    the change listener ran. *)
Definition page_rejected : Page.t :=
  snd (updateTime_change 0%nat 0%nat (Page.with_dom (Dom.set_value 3) page_local)).

(** * Theorems *)

(** ** The fetcher *)

Section Fetch.

Variables (r : Response.t) (s : Satellite.State).
Hypothesis failure : Response.ok r = false.

Lemma fetch_failure_result :
  Satellite.fetchSatellite (Resolved r) s =
    (Normal Undefined,
     Satellite.mkState
       (Satellite.set_error (Response.status r) (Response.statusText r) (Satellite.this s))
       (Browser.print
          (Browser.Log (Satellite.errors
             (Satellite.set_error (Response.status r) (Response.statusText r) (Satellite.this s))))
          (Satellite.browser s))).
Proof. unfold Satellite.fetchSatellite. rewrite failure. reflexivity. Qed.

End Fetch.

Lemma fetch_success_result (r : Response.t) (json : Json.t) (s : Satellite.State) :
  Response.ok r = true → Response.body r = Some json →
  Satellite.fetchSatellite (Resolved r) s =
    (Normal This,
     Satellite.mkState (Satellite.set_position json (Satellite.this s)) (Satellite.browser s)).
Proof.
  intros Hok Hbody. unfold Satellite.fetchSatellite. rewrite Hok, Hbody. reflexivity.
Qed.

(** C3, at the failing input: a fetch that is answered 404 hands back
    [undefined], not the satellite, although the satellite has been updated
    with the error; the success branch of the same method hands back
    [this]. *)
Theorem fetch_404_returns_undefined :
  fst (Satellite.fetchSatellite (Resolved not_found) page1) = Normal Undefined ∧
  Satellite.errorCode (Satellite.this (snd (Satellite.fetchSatellite (Resolved not_found) page1)))
    = Some 404 ∧
  fst (Satellite.fetchSatellite (Resolved (Response.mk 200 "OK" (Some iss_json))) page1)
    = Normal This.
Proof. repeat split; reflexivity. Qed.

(** C4: a fetch answered with a non-success status leaves every positional
    field (and the identifier, the url, the last response and the timer
    handle) as it was, and sets the error fields to the status code and
    the status text of the response. *)
Theorem fetch_failure_preserves_position (r : Response.t) (s : Satellite.State) :
  Response.ok r = false →
  let o := Satellite.this s in
  let o' := Satellite.this (snd (Satellite.fetchSatellite (Resolved r) s)) in
  (Satellite.latitude o' = Satellite.latitude o ∧
   Satellite.longitude o' = Satellite.longitude o ∧
   Satellite.altitude o' = Satellite.altitude o ∧
   Satellite.velocity o' = Satellite.velocity o ∧
   Satellite.timestamp o' = Satellite.timestamp o ∧
   Satellite.daynum o' = Satellite.daynum o ∧
   Satellite.footprint o' = Satellite.footprint o ∧
   Satellite.solar_lat o' = Satellite.solar_lat o ∧
   Satellite.solar_lon o' = Satellite.solar_lon o ∧
   Satellite.units o' = Satellite.units o ∧
   Satellite.visibility o' = Satellite.visibility o ∧
   Satellite.name o' = Satellite.name o ∧
   Satellite.id o' = Satellite.id o ∧
   Satellite.url o' = Satellite.url o ∧
   Satellite.fetchResponse o' = Satellite.fetchResponse o ∧
   Satellite.autoUpdater o' = Satellite.autoUpdater o) ∧
  Satellite.errorBool o' = Some true ∧
  Satellite.errorCode o' = Some (Response.status r) ∧
  Satellite.errorText o' = Some (Response.statusText r).
Proof.
  intros Hfail. rewrite (fetch_failure_result r s Hfail). simpl.
  repeat split; reflexivity.
Qed.

Lemma fetch_failure_preserves_position_witness :
  Response.ok not_found = false ∧
  Satellite.latitude (Satellite.this (snd (Satellite.fetchSatellite (Resolved not_found) page1)))
    = Some (512 # 10)%Q ∧
  Satellite.errorCode (Satellite.this (snd (Satellite.fetchSatellite (Resolved not_found) page1)))
    = Some 404.
Proof.
  pose proof (fetch_failure_preserves_position not_found page1 eq_refl) as H.
  simpl in H. destruct H as [[Hlat _] [_ [Hcode _]]].
  split; [reflexivity|]. split; [exact Hlat | exact Hcode].
Defined.

(** ** The refresh loop *)

Section AutoUpdate.

Variables (self : ref) (s : Satellite.State).

Lemma autoUpdate_below_floor b interval map :
  interval < 1000 →
  Satellite.autoUpdate self b interval map s =
    (Throw (Error "Interval must be at least 1000 milliseconds."), s).
Proof.
  intros Hlt. apply Z.ltb_lt in Hlt.
  unfold Satellite.autoUpdate, mbind, M_bind, bind. rewrite Hlt. reflexivity.
Qed.

Lemma autoUpdate_no_map b interval :
  1000 ≤ interval →
  Satellite.autoUpdate self b interval None s = (Throw (Error "Map is not given."), s).
Proof.
  intros Hge. apply Z.ltb_ge in Hge.
  unfold Satellite.autoUpdate, mbind, M_bind, bind. rewrite Hge. reflexivity.
Qed.

Lemma autoUpdate_stop interval m :
  1000 ≤ interval →
  Satellite.autoUpdate self false interval (Some m) s =
    (Normal This,
     Satellite.with_browser
       (Browser.clearInterval (Satellite.autoUpdater (Satellite.this s))) s).
Proof.
  intros Hge. apply Z.ltb_ge in Hge.
  unfold Satellite.autoUpdate, mbind, M_bind, bind. rewrite Hge. reflexivity.
Qed.

Lemma autoUpdate_start interval m :
  1000 ≤ interval →
  Satellite.autoUpdate self true interval (Some m) s = (Normal This, started self interval m s).
Proof.
  intros Hge. apply Z.ltb_ge in Hge.
  unfold Satellite.autoUpdate, mbind, M_bind, bind. rewrite Hge. reflexivity.
Qed.

End AutoUpdate.

(** C6: with a map handle given, a start fails exactly when the interval is
    below 1000 ms, and then with the interval error; it succeeds exactly
    when the interval is at least 1000 ms.  In particular a start at 500 ms
    fails and a start at 1000 ms succeeds. *)
Theorem start_fails_iff_below_floor :
  (∀ (self m : ref) (interval : Z) (s : Satellite.State),
      (fst (Satellite.autoUpdate self true interval (Some m) s)
         = Throw (Error "Interval must be at least 1000 milliseconds.")
       ↔ interval < 1000) ∧
      (throws (fst (Satellite.autoUpdate self true interval (Some m) s)) ↔ interval < 1000) ∧
      (fst (Satellite.autoUpdate self true interval (Some m) s) = Normal This
       ↔ 1000 ≤ interval)) ∧
  throws (fst (Satellite.autoUpdate 0%nat true 500 (Some 0%nat) page1)) ∧
  fst (Satellite.autoUpdate 0%nat true 1000 (Some 0%nat) page1) = Normal This.
Proof.
  split; [|split; [exact I | reflexivity]].
  intros self m interval s.
  destruct (Z.lt_ge_cases interval 1000) as [Hlt | Hge].
  - rewrite (autoUpdate_below_floor self s true interval (Some m) Hlt). simpl.
    repeat split; try done; intros; lia.
  - rewrite (autoUpdate_start self s interval m Hge). simpl.
    repeat split; try done; intros; lia.
Qed.

(** C9: a stop request whose interval is below 1000 ms, or that comes
    without a map handle, throws at the guards: the stop branch is not
    reached and nothing changes, so a running timer stays active. *)
Theorem stop_request_still_guarded (self : ref) (interval : Z) (map : option ref)
    (s : Satellite.State) :
  interval < 1000 ∨ map = None →
  throws (fst (Satellite.autoUpdate self false interval map s)) ∧
  snd (Satellite.autoUpdate self false interval map s) = s ∧
  running (snd (Satellite.autoUpdate self false interval map s)) = running s.
Proof.
  intros Hbad.
  destruct (Z.lt_ge_cases interval 1000) as [Hlt | Hge].
  - rewrite (autoUpdate_below_floor self s false interval map Hlt). done.
  - destruct Hbad as [Hlt | ->]; [lia|].
    rewrite (autoUpdate_no_map self s false interval Hge). done.
Qed.

Lemma stop_request_still_guarded_witness :
  running page2 = true ∧
  throws (fst (Satellite.autoUpdate 0%nat false 500 (Some 0%nat) page2)) ∧
  running (snd (Satellite.autoUpdate 0%nat false 500 (Some 0%nat) page2)) = true ∧
  throws (fst (Satellite.autoUpdate 0%nat false 15000 None page2)) ∧
  running (snd (Satellite.autoUpdate 0%nat false 15000 None page2)) = true.
Proof.
  destruct (stop_request_still_guarded 0%nat 500 (Some 0%nat) page2) as (H1 & _ & H2);
    [left; lia|].
  destruct (stop_request_still_guarded 0%nat 15000 None page2) as (H3 & _ & H4);
    [right; reflexivity|].
  split; [reflexivity|].
  split; [exact H1|]. split; [rewrite H2; reflexivity|].
  split; [exact H3|]. rewrite H4; reflexivity.
Defined.

Lemma clearInterval_lookup (o : option timer_id) (b : Browser.t) (i : timer_id) :
  Browser.timers (Browser.clearInterval o b) !! i =
    if decide (o = Some i) then None else Browser.timers b !! i.
Proof.
  destruct o as [k|]; simpl.
  - rewrite lookup_delete.
    destruct (decide (k = i)), (decide (Some k = Some i)); congruence.
  - destruct (decide (None = Some i)); congruence.
Qed.

Lemma clearInterval_inactive (o : option timer_id) (b : Browser.t) :
  (∀ i, o = Some i → Browser.timers b !! i = None) →
  Browser.clearInterval o b = b.
Proof.
  intros Hnone. destruct o as [k|]; [|done].
  destruct b as [ts n c]. simpl in *. f_equal.
  apply delete_id. by apply Hnone.
Qed.

Lemma running_false (s : Satellite.State) :
  running s = false ↔
  ∀ i, Satellite.autoUpdater (Satellite.this s) = Some i →
       Browser.timers (Satellite.browser s) !! i = None.
Proof.
  unfold running. destruct (Satellite.autoUpdater (Satellite.this s)) as [k|].
  - rewrite bool_decide_eq_false, <- eq_None_not_Some. split.
    + intros Hk i [= <-]. done.
    + intros H. by apply H.
  - split; [intros _ i [=] | done].
Qed.

(** C8: a stop request that passes the guards returns normally, removes
    the timer that [autoUpdater] names from the timer table, touches no
    other timer and no field of the satellite, and leaves the loop
    stopped.  On a loop that is already stopped it changes nothing at all,
    and a second stop after a first changes nothing either. *)
Theorem stop_cancels_and_is_idempotent (self m : ref) (interval : Z) (s : Satellite.State) :
  1000 ≤ interval →
  let s' := snd (Satellite.autoUpdate self false interval (Some m) s) in
  fst (Satellite.autoUpdate self false interval (Some m) s) = Normal This ∧
  (∀ i, Satellite.autoUpdater (Satellite.this s) = Some i →
        Browser.timers (Satellite.browser s') !! i = None) ∧
  (∀ i, Satellite.autoUpdater (Satellite.this s) ≠ Some i →
        Browser.timers (Satellite.browser s') !! i = Browser.timers (Satellite.browser s) !! i) ∧
  Satellite.this s' = Satellite.this s ∧
  running s' = false ∧
  (running s = false → s' = s) ∧
  snd (Satellite.autoUpdate self false interval (Some m) s') = s'.
Proof.
  intros Hge s'. subst s'.
  assert (Hstopped : running (Satellite.with_browser
            (Browser.clearInterval (Satellite.autoUpdater (Satellite.this s))) s) = false).
  { apply running_false. simpl. intros i Hi.
    rewrite clearInterval_lookup, decide_True; done. }
  assert (Hnoop : ∀ t, running t = false →
            Satellite.with_browser
              (Browser.clearInterval (Satellite.autoUpdater (Satellite.this t))) t = t).
  { intros [o b] Hr. unfold Satellite.with_browser. simpl. f_equal.
    apply clearInterval_inactive. exact (proj1 (running_false _) Hr). }
  rewrite !autoUpdate_stop by done. cbn [fst snd].
  split; [done|]. split.
  { simpl. intros i Hi. rewrite clearInterval_lookup, decide_True; done. }
  split.
  { simpl. intros i Hi. rewrite clearInterval_lookup, decide_False; done. }
  split; [done|]. split; [exact Hstopped|]. split.
  - apply Hnoop.
  - apply Hnoop, Hstopped.
Qed.

Lemma stop_cancels_and_is_idempotent_witness :
  running page2 = true ∧
  running (snd (Satellite.autoUpdate 0%nat false 15000 (Some 0%nat) page2)) = false ∧
  snd (Satellite.autoUpdate 0%nat false 15000 (Some 0%nat) page1) = page1.
Proof.
  destruct (stop_cancels_and_is_idempotent 0%nat 0%nat 15000 page2) as (_ & _ & _ & _ & H & _);
    [lia|].
  destruct (stop_cancels_and_is_idempotent 0%nat 0%nat 15000 page1) as (_ & _ & _ & _ & _ & H' & _);
    [lia|].
  split; [reflexivity|]. split; [exact H|]. apply H'. reflexivity.
Defined.

(** *** One tick stream at a time *)

Lemma tick_streams_lookup (self : ref) (b : Browser.t) (i : timer_id) (t : Browser.Timer) :
  tick_streams self b !! i = Some t ↔ Browser.timers b !! i = Some t ∧ owner t = self.
Proof. unfold tick_streams. by rewrite map_lookup_filter_Some. Qed.

Lemma started_lookup (self : ref) (interval : Z) (m : ref) (s : Satellite.State) (i : timer_id) :
  Browser.timers (Satellite.browser (started self interval m s)) !! i =
    if decide (Browser.nextTimerId (Satellite.browser s) = i)
    then Some (Browser.mkTimer (Browser.UpdateTick self m) interval)
    else if decide (Satellite.autoUpdater (Satellite.this s) = Some i) then None
    else Browser.timers (Satellite.browser s) !! i.
Proof.
  unfold started. simpl.
  replace (Browser.nextTimerId
             (Browser.clearInterval (Satellite.autoUpdater (Satellite.this s)) (Satellite.browser s)))
    with (Browser.nextTimerId (Satellite.browser s))
    by (by destruct (Satellite.autoUpdater (Satellite.this s))).
  rewrite lookup_insert.
  destruct (decide (Browser.nextTimerId (Satellite.browser s) = i)); [done|].
  apply clearInterval_lookup.
Qed.

Lemma started_autoUpdater (self : ref) (interval : Z) (m : ref) (s : Satellite.State) :
  Satellite.autoUpdater (Satellite.this (started self interval m s))
    = Some (Browser.nextTimerId (Satellite.browser s)) ∧
  Browser.nextTimerId (Satellite.browser (started self interval m s))
    = S (Browser.nextTimerId (Satellite.browser s)).
Proof.
  unfold started. simpl. by destruct (Satellite.autoUpdater (Satellite.this s)).
Qed.

Lemma loop_inv_started (self : ref) (interval : Z) (m : ref) (s : Satellite.State) :
  loop_inv self s → loop_inv self (started self interval m s).
Proof.
  intros Hinv i t Hi Hown.
  rewrite (proj1 (started_autoUpdater self interval m s)).
  rewrite started_lookup in Hi.
  destruct (decide (Browser.nextTimerId (Satellite.browser s) = i)) as [->|_]; [done|].
  destruct (decide (Satellite.autoUpdater (Satellite.this s) = Some i)) as [|Hne]; [done|].
  destruct Hne. exact (Hinv i t Hi Hown).
Qed.

Lemma loop_inv_fetch (self : ref) (f : FetchResult) (s : Satellite.State) :
  loop_inv self s → loop_inv self (snd (Satellite.fetchSatellite f s)).
Proof.
  intros Hinv. destruct f as [|r]; [exact Hinv|].
  destruct (Response.ok r) eqn:Hok.
  - destruct (Response.body r) as [json|] eqn:Hbody.
    + rewrite (fetch_success_result r json s Hok Hbody). exact Hinv.
    + unfold Satellite.fetchSatellite. rewrite Hok, Hbody. exact Hinv.
  - rewrite (fetch_failure_result r s Hok). exact Hinv.
Qed.

Lemma loop_inv_step (self : ref) (e : Event) (s : Satellite.State) :
  loop_inv self s → loop_inv self (step self s e).
Proof.
  intros Hinv. destruct e as [b interval map | f]; [|by apply loop_inv_fetch].
  simpl. destruct (Z.lt_ge_cases interval 1000) as [Hlt | Hge].
  { by rewrite autoUpdate_below_floor. }
  destruct map as [m|]; [|by rewrite autoUpdate_no_map].
  destruct b.
  - rewrite autoUpdate_start by done. by apply loop_inv_started.
  - rewrite autoUpdate_stop by done. intros i t Hi Hown. simpl in *.
    rewrite clearInterval_lookup in Hi.
    destruct (decide (Satellite.autoUpdater (Satellite.this s) = Some i)); [done|].
    exact (Hinv i t Hi Hown).
Qed.

Lemma loop_inv_run (self : ref) (es : list Event) (s : Satellite.State) :
  loop_inv self s → loop_inv self (run self es s).
Proof.
  revert s. induction es as [|e es IH]; intros s Hinv; [done|].
  simpl. apply IH. by apply loop_inv_step.
Qed.

Lemma loop_inv_at_most_one (self : ref) (s : Satellite.State) :
  loop_inv self s → (size (tick_streams self (Satellite.browser s)) ≤ 1)%nat.
Proof.
  intros Hinv.
  destruct (Satellite.autoUpdater (Satellite.this s)) as [k|] eqn:Hk.
  - rewrite <- size_dom.
    transitivity (size ({[k]} : gset timer_id)); [|by rewrite size_singleton].
    apply subseteq_size. intros i Hi.
    apply elem_of_dom in Hi as [t Ht]. apply tick_streams_lookup in Ht as [Ht Hown].
    specialize (Hinv i t Ht Hown). rewrite Hk in Hinv. set_solver.
  - replace (tick_streams self (Satellite.browser s)) with (∅ : gmap timer_id Browser.Timer).
    { rewrite map_size_empty. lia. }
    symmetry. apply map_empty. intros i.
    destruct (tick_streams self (Satellite.browser s) !! i) as [t|] eqn:Ht; [|done].
    apply tick_streams_lookup in Ht as [Ht Hown].
    specialize (Hinv i t Ht Hown). congruence.
Qed.

Lemma tick_streams_cleared (self : ref) (s : Satellite.State) :
  loop_inv self s →
  tick_streams self (Browser.clearInterval (Satellite.autoUpdater (Satellite.this s))
                       (Satellite.browser s)) = ∅.
Proof.
  intros Hinv. apply map_empty. intros i.
  match goal with |- ?x = None => destruct x as [t|] eqn:Ht; [|done] end.
  apply tick_streams_lookup in Ht as [Ht Hown].
  rewrite clearInterval_lookup in Ht.
  destruct (decide (Satellite.autoUpdater (Satellite.this s) = Some i)) as [|Hne]; [done|].
  destruct Hne. exact (Hinv i t Ht Hown).
Qed.

Lemma tick_streams_started (self : ref) (interval : Z) (m : ref) (s : Satellite.State) :
  loop_inv self s →
  tick_streams self (Satellite.browser (started self interval m s)) =
    {[ Browser.nextTimerId (Satellite.browser s) :=
         Browser.mkTimer (Browser.UpdateTick self m) interval ]}.
Proof.
  intros Hinv. apply map_eq. intros i.
  destruct (decide (Browser.nextTimerId (Satellite.browser s) = i)) as [<-|Hne].
  - rewrite lookup_singleton_eq. apply tick_streams_lookup.
    rewrite started_lookup, decide_True by done. done.
  - rewrite lookup_singleton_ne by done.
    match goal with |- ?x = None => destruct x as [t|] eqn:Ht; [|done] end.
    apply tick_streams_lookup in Ht as [Ht Hown].
    pose proof (loop_inv_started self interval m s Hinv i t Ht Hown) as Hi.
    rewrite (proj1 (started_autoUpdater self interval m s)) in Hi. congruence.
Qed.

(** C7: on a loop whose active timers are the one [autoUpdater] remembers
    (as for a new satellite), whatever calls of [autoUpdate] and fetches
    happen, at most one timer ticks for the satellite at any time.  For
    two consecutive successful starts: the first start leaves exactly its
    own timer; inside the second start the timer table holds no timer of
    the loop once [clearInterval] has run, which is before [setInterval]
    runs; and the second start leaves exactly its own, new timer, the
    first one being gone from the table. *)
Theorem restart_leaves_one_tick_stream (self : ref) (s : Satellite.State) :
  loop_inv self s →
  (∀ es, (size (tick_streams self (Satellite.browser (run self es s))) ≤ 1)%nat) ∧
  (∀ i1 m1 i2 m2, 1000 ≤ i1 → 1000 ≤ i2 →
     let r1 := Satellite.autoUpdate self true i1 (Some m1) s in
     let r2 := Satellite.autoUpdate self true i2 (Some m2) (snd r1) in
     let t1 := Browser.nextTimerId (Satellite.browser s) in
     fst r1 = Normal This ∧ fst r2 = Normal This ∧
     Satellite.autoUpdater (Satellite.this (snd r1)) = Some t1 ∧
     tick_streams self (Satellite.browser (snd r1))
       = {[ t1 := Browser.mkTimer (Browser.UpdateTick self m1) i1 ]} ∧
     tick_streams self
       (Browser.clearInterval (Satellite.autoUpdater (Satellite.this (snd r1)))
          (Satellite.browser (snd r1))) = ∅ ∧
     Browser.timers (Satellite.browser (snd r2)) !! t1 = None ∧
     Satellite.autoUpdater (Satellite.this (snd r2)) = Some (S t1) ∧
     tick_streams self (Satellite.browser (snd r2))
       = {[ S t1 := Browser.mkTimer (Browser.UpdateTick self m2) i2 ]}).
Proof.
  intros Hinv. split.
  { intros es. apply loop_inv_at_most_one. by apply loop_inv_run. }
  intros i1 m1 i2 m2 H1 H2. cbn zeta.
  rewrite (autoUpdate_start self s i1 m1 H1). cbn [fst snd].
  rewrite (autoUpdate_start self (started self i1 m1 s) i2 m2 H2). cbn [fst snd].
  pose proof (loop_inv_started self i1 m1 s Hinv) as Hinv1.
  destruct (started_autoUpdater self i1 m1 s) as [Ha1 Hn1].
  destruct (started_autoUpdater self i2 m2 (started self i1 m1 s)) as [Ha2 Hn2].
  split; [done|]. split; [done|]. split; [done|].
  split; [by apply tick_streams_started|].
  split; [by apply tick_streams_cleared|].
  split.
  { rewrite started_lookup, Hn1, Ha1.
    rewrite decide_False by lia. rewrite decide_True by done. done. }
  split; [by rewrite Ha2, Hn1|].
  rewrite tick_streams_started by done. by rewrite Hn1.
Qed.

Lemma restart_leaves_one_tick_stream_witness :
  loop_inv 0%nat page1 ∧
  (size (tick_streams 0%nat (Satellite.browser
     (run 0%nat [AutoUpdate true 15000 (Some 0%nat); Fetch (Resolved not_found);
                 AutoUpdate true 5000 (Some 0%nat); AutoUpdate false 500 (Some 0%nat);
                 AutoUpdate true 60000 (Some 0%nat)] page1))) ≤ 1)%nat ∧
  Browser.timers (Satellite.browser
    (snd (Satellite.autoUpdate 0%nat true 5000 (Some 0%nat)
       (snd (Satellite.autoUpdate 0%nat true 15000 (Some 0%nat) page1))))) !! 1%nat = None.
Proof.
  assert (Hinv : loop_inv 0%nat page1).
  { intros i t Hi. vm_compute in Hi. discriminate Hi. }
  destruct (restart_leaves_one_tick_stream 0%nat page1 Hinv) as [Hany Htwo].
  split; [exact Hinv|]. split; [apply Hany|].
  destruct (Htwo 15000 0%nat 5000 0%nat) as (_ & _ & _ & _ & _ & Hgone & _); [lia | lia |].
  exact Hgone.
Defined.

Lemma loop_inv_new (self : ref) (id : Z) (b : Browser.t) :
  tick_streams self b = ∅ → loop_inv self (Satellite.mkState (Satellite.new id) b).
Proof.
  intros Hnone i t Hi Hown. simpl in Hi.
  assert (tick_streams self b !! i = Some t) as Ht by (by apply tick_streams_lookup).
  rewrite Hnone, lookup_empty in Ht. done.
Qed.

(** ** The registry lookups *)

Section Lookup.

Variable i : Z.
Implicit Types (l : list Leaflet.MarkerRecord) (r : Leaflet.MarkerRecord).

Lemma find_None l :
  Leaflet.find i l = None ↔ Forall (λ r, Leaflet.id r ≠ i) l.
Proof.
  unfold Leaflet.find. rewrite fmap_None. apply list_find_None.
Qed.

Lemma list_find_first l1 r l2 :
  Forall (λ x, Leaflet.id x ≠ i) l1 → Leaflet.id r = i →
  list_find (λ m, Leaflet.id m = i) (l1 ++ r :: l2) = Some (length l1, r).
Proof.
  intros Hl1 Hr. apply list_find_Some. split; [|split; [exact Hr|]].
  - rewrite lookup_app_r by lia. by rewrite Nat.sub_diag.
  - intros j y Hj Hlt. rewrite lookup_app_l in Hj by done.
    rewrite Forall_lookup in Hl1. exact (Hl1 j y Hj).
Qed.

Lemma find_first l1 r l2 :
  Forall (λ x, Leaflet.id x ≠ i) l1 → Leaflet.id r = i →
  Leaflet.find i (l1 ++ r :: l2) = Some r.
Proof.
  intros Hl1 Hr. unfold Leaflet.find. by rewrite list_find_first.
Qed.

Lemma findIndex_first l1 r l2 :
  Forall (λ x, Leaflet.id x ≠ i) l1 → Leaflet.id r = i →
  Leaflet.findIndex i (l1 ++ r :: l2) = Z.of_nat (length l1).
Proof.
  intros Hl1 Hr. unfold Leaflet.findIndex. by rewrite list_find_first.
Qed.

(** A registry either has no record for [i] or splits at the first one. *)
Lemma registry_split l :
  Forall (λ r, Leaflet.id r ≠ i) l ∨
  ∃ l1 r l2, l = l1 ++ r :: l2 ∧ Forall (λ x, Leaflet.id x ≠ i) l1 ∧ Leaflet.id r = i.
Proof.
  induction l as [|x l IH]; [left; constructor|].
  destruct (decide (Leaflet.id x = i)) as [Hx|Hx].
  - right. exists [], x, l. split; [done|]. split; [constructor | done].
  - destruct IH as [Hall | (l1 & r & l2 & -> & Hl1 & Hr)].
    + left. by constructor.
    + right. exists (x :: l1), r, l2. split; [done|]. split; [by constructor | done].
Qed.

Lemma records_for_none l :
  Forall (λ r, Leaflet.id r ≠ i) l → records_for i l = [].
Proof.
  unfold records_for. induction 1 as [|x l Hx _ IH]; [done|].
  by rewrite filter_cons_False.
Qed.

End Lookup.

Lemma splice_one {A} (l1 : list A) (x : A) (l2 : list A) :
  splice (Z.of_nat (length l1)) 1 (l1 ++ x :: l2) = l1 ++ l2.
Proof.
  unfold splice. rewrite length_app. simpl length.
  rewrite (proj2 (Z.ltb_ge _ _)) by lia.
  rewrite Z.min_l by lia. rewrite (Z.max_l 1 0) by lia. rewrite Z.min_l by lia.
  rewrite Nat2Z.id.
  replace (Z.to_nat (Z.of_nat (length l1) + 1)) with (S (length l1)) by lia.
  rewrite take_app_length.
  replace (l1 ++ x :: l2) with ((l1 ++ [x]) ++ l2) by (by rewrite <- app_assoc).
  rewrite drop_app_length'; [done|]. rewrite length_app. simpl. lia.
Qed.

(** ** [removeSatellite] and [zoomToSatellite] *)

Section Registry.

Variables (satellite : Satellite.t) (s : Leaflet.State).

Let sid : Z := Satellite.id satellite.
Let registry : list Leaflet.MarkerRecord := Leaflet.markers (Leaflet.this s).

Lemma removeSatellite_absent :
  Forall (λ r, Leaflet.id r ≠ sid) registry →
  Leaflet.removeSatellite satellite s =
    (Throw (TypeError "Cannot read properties of undefined (reading 'marker')"), s).
Proof.
  intros Habsent. apply find_None in Habsent.
  unfold Leaflet.removeSatellite, mbind, M_bind, bind, gets.
  subst sid registry. rewrite Habsent. reflexivity.
Qed.

Lemma removeSatellite_found r :
  Leaflet.find sid registry = Some r →
  Leaflet.removeSatellite satellite s =
    (Normal This,
     Leaflet.mkState
       (Leaflet.mk (L.removeLayer (Leaflet.marker r) (Leaflet.map (Leaflet.this s)))
                   (splice (Leaflet.findIndex sid registry) 1 registry)
                   (Leaflet.satelliteIndex (Leaflet.this s)))
       (Leaflet.heap s) (Leaflet.href s)).
Proof.
  intros Hfound. subst sid registry.
  unfold Leaflet.removeSatellite, mbind, M_bind, bind, gets.
  rewrite Hfound. reflexivity.
Qed.

Lemma removeSatellite_first l1 r l2 :
  registry = l1 ++ r :: l2 →
  Forall (λ x, Leaflet.id x ≠ sid) l1 → Leaflet.id r = sid →
  Leaflet.removeSatellite satellite s =
    (Normal This,
     Leaflet.mkState
       (Leaflet.mk (L.removeLayer (Leaflet.marker r) (Leaflet.map (Leaflet.this s)))
                   (l1 ++ l2)
                   (Leaflet.satelliteIndex (Leaflet.this s)))
       (Leaflet.heap s) (Leaflet.href s)).
Proof.
  intros Hreg Hl1 Hr.
  rewrite (removeSatellite_found r) by (rewrite Hreg; by apply find_first).
  rewrite Hreg, (findIndex_first _ l1 r l2 Hl1 Hr). by rewrite splice_one.
Qed.

Lemma zoomToSatellite_absent :
  Forall (λ r, Leaflet.id r ≠ sid) registry →
  Leaflet.zoomToSatellite satellite s =
    (Throw (TypeError "Cannot read properties of undefined (reading 'marker')"), s).
Proof.
  intros Habsent. apply find_None in Habsent.
  unfold Leaflet.zoomToSatellite, mbind, M_bind, bind, gets.
  subst sid registry. rewrite Habsent. reflexivity.
Qed.

Lemma zoomToSatellite_found r :
  Leaflet.find sid registry = Some r →
  Leaflet.zoomToSatellite satellite s =
    (Normal This,
     Leaflet.mkState
       (Leaflet.mk
          (L.mkMap (L._latlng (L.cells (Leaflet.heap s) (Leaflet.marker r)))
                   (L.zoom (Leaflet.map (Leaflet.this s)))
                   (L.minZoom (Leaflet.map (Leaflet.this s)))
                   (L.maxZoom (Leaflet.map (Leaflet.this s)))
                   (L.tiles (Leaflet.map (Leaflet.this s)))
                   (L.layers (Leaflet.map (Leaflet.this s))))
          (Leaflet.markers (Leaflet.this s))
          (Leaflet.satelliteIndex (Leaflet.this s)))
       (Leaflet.heap s) (Leaflet.href s)).
Proof.
  intros Hfound. subst sid registry.
  unfold Leaflet.zoomToSatellite, mbind, M_bind, bind, gets.
  rewrite Hfound. simpl. rewrite Hfound. reflexivity.
Qed.

End Registry.

(** C10: removing a satellite that has no record throws before anything
    is changed: the state after the call is the state before it, so the
    registry and the layers of the widget are as they were. *)
Theorem removeSatellite_absent_is_atomic (satellite : Satellite.t) (s : Leaflet.State) :
  Forall (λ r, Leaflet.id r ≠ Satellite.id satellite) (Leaflet.markers (Leaflet.this s)) →
  throws (fst (Leaflet.removeSatellite satellite s)) ∧
  snd (Leaflet.removeSatellite satellite s) = s ∧
  Leaflet.markers (Leaflet.this (snd (Leaflet.removeSatellite satellite s)))
    = Leaflet.markers (Leaflet.this s) ∧
  L.layers (Leaflet.map (Leaflet.this (snd (Leaflet.removeSatellite satellite s))))
    = L.layers (Leaflet.map (Leaflet.this s)).
Proof.
  intros Habsent. rewrite (removeSatellite_absent satellite s Habsent). done.
Qed.

Lemma removeSatellite_absent_is_atomic_witness :
  throws (fst (Leaflet.removeSatellite hubble view1)) ∧
  Leaflet.markers (Leaflet.this (snd (Leaflet.removeSatellite hubble view1)))
    = [Leaflet.mkRecord 25544 0%nat] ∧
  L.layers (Leaflet.map (Leaflet.this (snd (Leaflet.removeSatellite hubble view1))))
    = [0%nat].
Proof.
  destruct (removeSatellite_absent_is_atomic hubble view1) as (Hthrow & _ & Hreg & Hlay).
  { repeat constructor. simpl. lia. }
  split; [exact Hthrow|]. split; [rewrite Hreg | rewrite Hlay]; reflexivity.
Defined.

(** C2, as stated, fails: after two [addSatellite(iss)] a
    [removeSatellite(iss)] succeeds and the registry still holds a record
    for the identifier of [iss], whose marker is still on the widget. *)
Lemma removeSatellite_leaves_duplicate :
  fst (Leaflet.removeSatellite iss view2) = Normal This ∧
  Leaflet.markers (Leaflet.this (snd (Leaflet.removeSatellite iss view2)))
    = [Leaflet.mkRecord (Satellite.id iss) 1%nat] ∧
  ¬ Forall (λ r, Leaflet.id r ≠ Satellite.id iss)
      (Leaflet.markers (Leaflet.this (snd (Leaflet.removeSatellite iss view2)))) ∧
  L.layers (Leaflet.map (Leaflet.this (snd (Leaflet.removeSatellite iss view2)))) = [1%nat].
Proof.
  split; [reflexivity|]. split; [reflexivity|]. split; [|reflexivity].
  intros Hall. apply Forall_inv in Hall. by apply Hall.
Qed.

(** C2, amended: removing a satellite that has no record throws and
    changes nothing; otherwise the call returns normally, deletes the
    first record for the identifier and keeps every other record in
    order, takes that record's marker off the widget and changes nothing
    else.  When the registry held no second record for the identifier, no
    record for it is left. *)
Theorem removeSatellite_removes_first_record (satellite : Satellite.t) (s : Leaflet.State) :
  (Forall (λ r, Leaflet.id r ≠ Satellite.id satellite) (Leaflet.markers (Leaflet.this s)) →
   throws (fst (Leaflet.removeSatellite satellite s)) ∧
   snd (Leaflet.removeSatellite satellite s) = s) ∧
  (∀ l1 r l2,
     Leaflet.markers (Leaflet.this s) = l1 ++ r :: l2 →
     Forall (λ x, Leaflet.id x ≠ Satellite.id satellite) l1 →
     Leaflet.id r = Satellite.id satellite →
     let s' := snd (Leaflet.removeSatellite satellite s) in
     fst (Leaflet.removeSatellite satellite s) = Normal This ∧
     Leaflet.markers (Leaflet.this s') = l1 ++ l2 ∧
     (Leaflet.marker r ∉ L.layers (Leaflet.map (Leaflet.this s'))) ∧
     L.layers (Leaflet.map (Leaflet.this s'))
       = filter (λ k, k ≠ Leaflet.marker r) (L.layers (Leaflet.map (Leaflet.this s))) ∧
     L.center (Leaflet.map (Leaflet.this s')) = L.center (Leaflet.map (Leaflet.this s)) ∧
     L.zoom (Leaflet.map (Leaflet.this s')) = L.zoom (Leaflet.map (Leaflet.this s)) ∧
     L.tiles (Leaflet.map (Leaflet.this s')) = L.tiles (Leaflet.map (Leaflet.this s)) ∧
     Leaflet.satelliteIndex (Leaflet.this s') = Leaflet.satelliteIndex (Leaflet.this s) ∧
     Leaflet.heap s' = Leaflet.heap s ∧
     (Forall (λ x, Leaflet.id x ≠ Satellite.id satellite) l2 →
      Forall (λ x, Leaflet.id x ≠ Satellite.id satellite) (Leaflet.markers (Leaflet.this s')))).
Proof.
  split.
  { intros Habsent. by rewrite (removeSatellite_absent satellite s Habsent). }
  intros l1 r l2 Hreg Hl1 Hr s'. subst s'.
  rewrite (removeSatellite_first satellite s l1 r l2 Hreg Hl1 Hr). simpl.
  repeat (split; [done|]). split.
  { rewrite list_elem_of_filter. tauto. }
  repeat (split; [done|]).
  intros Hl2. by apply Forall_app.
Qed.

Lemma removeSatellite_removes_first_record_witness :
  throws (fst (Leaflet.removeSatellite hubble view1)) ∧
  Leaflet.markers (Leaflet.this (snd (Leaflet.removeSatellite iss view1))) = [] ∧
  0%nat ∉ L.layers (Leaflet.map (Leaflet.this (snd (Leaflet.removeSatellite iss view1)))).
Proof.
  destruct (removeSatellite_removes_first_record hubble view1) as [Habsent _].
  destruct (removeSatellite_removes_first_record iss view1) as [_ Hfound].
  destruct (Hfound [] (Leaflet.mkRecord 25544 0%nat) [] eq_refl (Forall_nil_2 _) eq_refl)
    as (_ & Hreg & Hlay & _).
  split; [apply Habsent; repeat constructor; simpl; lia|].
  split; [exact Hreg | exact Hlay].
Defined.

(** The effect of [zoomToSatellite] on the view: on a satellite that has
    no record it throws and changes nothing; otherwise it returns normally
    and the view differs from the one before only in the centre of the
    widget, which becomes the position of the marker of the first record
    for the identifier; the zoom level, the limits, the layers, the
    registry and the markers are the same. *)
Theorem zoomToSatellite_recentres_only (satellite : Satellite.t) (s : Leaflet.State) :
  (Forall (λ r, Leaflet.id r ≠ Satellite.id satellite) (Leaflet.markers (Leaflet.this s)) →
   throws (fst (Leaflet.zoomToSatellite satellite s)) ∧
   snd (Leaflet.zoomToSatellite satellite s) = s) ∧
  (∀ l1 r l2,
     Leaflet.markers (Leaflet.this s) = l1 ++ r :: l2 →
     Forall (λ x, Leaflet.id x ≠ Satellite.id satellite) l1 →
     Leaflet.id r = Satellite.id satellite →
     let s' := snd (Leaflet.zoomToSatellite satellite s) in
     fst (Leaflet.zoomToSatellite satellite s) = Normal This ∧
     L.center (Leaflet.map (Leaflet.this s'))
       = L._latlng (L.cells (Leaflet.heap s) (Leaflet.marker r)) ∧
     L.zoom (Leaflet.map (Leaflet.this s')) = L.zoom (Leaflet.map (Leaflet.this s)) ∧
     s' = Leaflet.mkState
            (Leaflet.mk
               (L.mkMap (L.center (Leaflet.map (Leaflet.this s')))
                        (L.zoom (Leaflet.map (Leaflet.this s)))
                        (L.minZoom (Leaflet.map (Leaflet.this s)))
                        (L.maxZoom (Leaflet.map (Leaflet.this s)))
                        (L.tiles (Leaflet.map (Leaflet.this s)))
                        (L.layers (Leaflet.map (Leaflet.this s))))
               (Leaflet.markers (Leaflet.this s))
               (Leaflet.satelliteIndex (Leaflet.this s)))
            (Leaflet.heap s) (Leaflet.href s)).
Proof.
  split.
  { intros Habsent. by rewrite (zoomToSatellite_absent satellite s Habsent). }
  intros l1 r l2 Hreg Hl1 Hr s'. subst s'.
  rewrite (zoomToSatellite_found satellite s r) by (rewrite Hreg; by apply find_first).
  done.
Qed.

Lemma zoomToSatellite_recentres_only_witness :
  throws (fst (Leaflet.zoomToSatellite hubble view1)) ∧
  L.center (Leaflet.map (Leaflet.this (snd (Leaflet.zoomToSatellite iss view1))))
    = L.latLng (512 # 10) (-1 # 10) ∧
  L.zoom (Leaflet.map (Leaflet.this (snd (Leaflet.zoomToSatellite iss view1)))) = 3.
Proof.
  destruct (zoomToSatellite_recentres_only hubble view1) as [Habsent _].
  destruct (zoomToSatellite_recentres_only iss view1) as [_ Hfound].
  destruct (Hfound [] (Leaflet.mkRecord 25544 0%nat) [] eq_refl (Forall_nil_2 _) eq_refl)
    as (_ & Hcentre & Hzoom & _).
  split; [apply Habsent; repeat constructor; simpl; lia|].
  split; [rewrite Hcentre | rewrite Hzoom]; reflexivity.
Defined.

(** C5, at the failing input: [zoomToSatellite] on a satellite that has no
    record does not fail with the not-found error the method carries.
    The guard itself reads [.marker] off the [undefined] that [find]
    returned, so what is thrown is the engine's [TypeError]; and for no
    satellite and no view does the call end in
    [Error('Satellite not found. Could not reposition map.')]: with a
    record the guard sees a marker object and the call returns, without
    one the guard has thrown before its [throw] is reached. *)
Theorem zoomToSatellite_not_found_error_unreachable :
  fst (Leaflet.zoomToSatellite hubble view1)
    = Throw (TypeError "Cannot read properties of undefined (reading 'marker')") ∧
  snd (Leaflet.zoomToSatellite hubble view1) = view1 ∧
  (∀ (satellite : Satellite.t) (s : Leaflet.State),
     Forall (λ r, Leaflet.id r ≠ Satellite.id satellite) (Leaflet.markers (Leaflet.this s)) ↔
     fst (Leaflet.zoomToSatellite satellite s)
       = Throw (TypeError "Cannot read properties of undefined (reading 'marker')")) ∧
  (∀ (satellite : Satellite.t) (s : Leaflet.State),
     fst (Leaflet.zoomToSatellite satellite s)
       ≠ Throw (Error "Satellite not found. Could not reposition map.")).
Proof.
  assert (Hcases : ∀ (satellite : Satellite.t) (s : Leaflet.State),
            (Forall (λ r, Leaflet.id r ≠ Satellite.id satellite)
                    (Leaflet.markers (Leaflet.this s)) ∧
             fst (Leaflet.zoomToSatellite satellite s)
               = Throw (TypeError "Cannot read properties of undefined (reading 'marker')")) ∨
            (¬ Forall (λ r, Leaflet.id r ≠ Satellite.id satellite)
                      (Leaflet.markers (Leaflet.this s)) ∧
             fst (Leaflet.zoomToSatellite satellite s) = Normal This)).
  { intros satellite s.
    destruct (Leaflet.find (Satellite.id satellite) (Leaflet.markers (Leaflet.this s)))
      as [r|] eqn:Hfound.
    - right. split.
      + intros Habsent. apply find_None in Habsent. congruence.
      + by rewrite (zoomToSatellite_found satellite s r Hfound).
    - left. apply find_None in Hfound. split; [exact Hfound|].
      by rewrite (zoomToSatellite_absent satellite s Hfound). }
  split; [reflexivity|]. split; [reflexivity|]. split.
  - intros satellite s. destruct (Hcases satellite s) as [[Habsent Hthrow] | [Hfound Hret]].
    + by split.
    + split; [done|]. rewrite Hret. discriminate.
  - intros satellite s. destruct (Hcases satellite s) as [[_ ->] | [_ ->]]; discriminate.
Qed.

(** ** [addSatellite] *)

Lemma demote_next (ms : list Leaflet.MarkerRecord) (h : L.Store) :
  L.next (demote ms h) = L.next h.
Proof. revert h. induction ms as [|m ms IH]; intros h; [done|]. simpl. by rewrite IH. Qed.

Lemma demote_icon (ms : list Leaflet.MarkerRecord) (h : L.Store) (k : L.handle) :
  L.m_icon (L.cells (demote ms h) k) =
    if decide (k ∈ Leaflet.marker <$> ms) then Leaflet.icons_dot else L.m_icon (L.cells h k).
Proof.
  revert h. induction ms as [|m ms IH]; intros h.
  - simpl. destruct (decide (k ∈ [])) as [Hin|]; [|done]. by apply elem_of_nil in Hin.
  - simpl. rewrite IH. simpl.
    destruct (decide (k ∈ Leaflet.marker <$> ms)) as [Hin|Hnin].
    + rewrite decide_True; [done|]. by right.
    + destruct (decide (k = Leaflet.marker m)) as [->|Hne].
      * rewrite decide_True; [done|]. by left.
      * rewrite decide_False; [done|]. intros Hin. apply elem_of_cons in Hin. tauto.
Qed.

Lemma demote_step (x : Satellite.t) (s : Leaflet.State) :
  (if Leaflet.find (Satellite.id x) (Leaflet.markers (Leaflet.this s)) is Some _
   then Leaflet.replaceSatelliteWithDot x else mret This) s =
  (Normal This,
   Leaflet.with_heap (demote (records_for (Satellite.id x) (Leaflet.markers (Leaflet.this s)))) s).
Proof.
  destruct (Leaflet.find _ _) eqn:Hfound; [reflexivity|].
  apply find_None in Hfound. rewrite (records_for_none _ _ Hfound).
  by destruct s.
Qed.

(** What one successful [addSatellite] does to the registry, the store and
    the widget. *)
Lemma addSatellite_drawable (x : Satellite.t) (s : Leaflet.State) :
  drawable x = true →
  ∃ s', Leaflet.addSatellite x s = (Normal This, s') ∧
    Leaflet.markers (Leaflet.this s')
      = Leaflet.markers (Leaflet.this s)
          ++ [Leaflet.mkRecord (Satellite.id x) (L.next (Leaflet.heap s))] ∧
    L.next (Leaflet.heap s') = S (L.next (Leaflet.heap s)) ∧
    Leaflet.href s' = Leaflet.href s ∧
    Leaflet.satelliteIndex (Leaflet.this s') = Leaflet.satelliteIndex (Leaflet.this s) ∧
    L.m_icon (L.cells (Leaflet.heap s') (L.next (Leaflet.heap s)))
      = Leaflet.satelliteIcon (Leaflet.href s) (Leaflet.satelliteIndex (Leaflet.this s)) ∧
    ∀ k, k ≠ L.next (Leaflet.heap s) →
      L.m_icon (L.cells (Leaflet.heap s') k) =
        if decide (k ∈ Leaflet.marker <$>
                     records_for (Satellite.id x) (Leaflet.markers (Leaflet.this s)))
        then Leaflet.icons_dot else L.m_icon (L.cells (Leaflet.heap s) k).
Proof.
  intros Hdraw.
  unfold Leaflet.addSatellite, mbind, M_bind, bind, gets. cbn beta iota.
  rewrite demote_step.
  set (ms := records_for (Satellite.id x) (Leaflet.markers (Leaflet.this s))).
  pose proof (demote_next ms (Leaflet.heap s)) as Hnext.
  pose proof (demote_icon ms (Leaflet.heap s)) as Hicon.
  destruct x as [xid ? xname xalt ? ? xlat xlon ? ? ? xunits xvel ? ? ? ? ? ?].
  unfold drawable in Hdraw. simpl in Hdraw, ms.
  destruct xlat, xlon, xname, xalt, xvel, xunits; try discriminate Hdraw.
  simpl. rewrite Hnext. eexists. split; [reflexivity|]. simpl.
  split; [done|]. split; [done|]. split; [done|]. split; [done|].
  rewrite !decide_True by done. split; [done|].
  intros k Hk. rewrite !decide_False by done. apply Hicon.
Qed.

Lemma addSatellite_not_drawable (x : Satellite.t) (s : Leaflet.State) :
  drawable x = false → throws (fst (Leaflet.addSatellite x s)).
Proof.
  intros Hdraw.
  unfold Leaflet.addSatellite, mbind, M_bind, bind, gets. cbn beta iota.
  rewrite demote_step.
  destruct x as [xid ? xname xalt ? ? xlat xlon ? ? ? xunits xvel ? ? ? ? ? ?].
  unfold drawable in Hdraw. simpl in Hdraw.
  destruct xlat, xlon, xname, xalt, xvel, xunits; try discriminate Hdraw; exact I.
Qed.

Lemma satelliteIcon_not_dot (href : string) (index : Z) :
  Leaflet.satelliteIcon href index ≠ Leaflet.icons_dot.
Proof. unfold Leaflet.satelliteIcon, Leaflet.icons_dot. intros [=]. Qed.

Section Sequence.

Variable i : Z.

Lemma addSatellite_trail (x : Satellite.t) (s s' : Leaflet.State) :
  well_formed s → Satellite.id x = i → drawable x = true →
  Leaflet.addSatellite x s = (Normal This, s') →
  well_formed s' ∧
  Leaflet.href s' = Leaflet.href s ∧
  Leaflet.satelliteIndex (Leaflet.this s') = Leaflet.satelliteIndex (Leaflet.this s) ∧
  records_for i (Leaflet.markers (Leaflet.this s'))
    = records_for i (Leaflet.markers (Leaflet.this s))
        ++ [Leaflet.mkRecord i (L.next (Leaflet.heap s))] ∧
  trail i (Leaflet.satelliteIcon (Leaflet.href s) (Leaflet.satelliteIndex (Leaflet.this s))) s'.
Proof.
  intros Hwf Hid Hdraw Hrun.
  destruct (addSatellite_drawable x s Hdraw)
    as (s1 & Hrun1 & Hreg & Hnext & Hhref & Hidx & Hnew & Hold).
  rewrite Hrun1 in Hrun. injection Hrun as <-. rewrite Hid in *.
  split; [|split; [done|split; [done|split]]].
  - unfold well_formed. rewrite Hreg, Hnext. apply Forall_app. split.
    + eapply Forall_impl; [exact Hwf|]. simpl. lia.
    + apply Forall_singleton. simpl. lia.
  - unfold records_for. rewrite Hreg, filter_app. f_equal.
    by rewrite filter_cons_True, filter_nil.
  - exists (Leaflet.markers (Leaflet.this s)), (Leaflet.mkRecord i (L.next (Leaflet.heap s))).
    unfold visual. simpl. rewrite Hnew.
    split; [done|]. split; [done|]. split; [done|].
    split; [apply satelliteIcon_not_dot|].
    apply Forall_forall. intros r Hr Hri.
    assert (Leaflet.marker r ≠ L.next (Leaflet.heap s)) as Hne.
    { unfold well_formed in Hwf. rewrite Forall_forall in Hwf.
      specialize (Hwf r Hr). lia. }
    rewrite (Hold _ Hne). rewrite decide_True; [done|].
    apply list_elem_of_fmap_2. apply list_elem_of_filter. done.
Qed.

Lemma addAll_trail (xs : list Satellite.t) :
  ∀ s, well_formed s →
    Forall (λ x, Satellite.id x = i ∧ drawable x = true) xs →
    ∃ s', addAll xs s = (Normal This, s') ∧
      well_formed s' ∧
      Leaflet.href s' = Leaflet.href s ∧
      Leaflet.satelliteIndex (Leaflet.this s') = Leaflet.satelliteIndex (Leaflet.this s) ∧
      length (records_for i (Leaflet.markers (Leaflet.this s')))
        = (length (records_for i (Leaflet.markers (Leaflet.this s))) + length xs)%nat ∧
      (xs ≠ [] →
       trail i (Leaflet.satelliteIcon (Leaflet.href s) (Leaflet.satelliteIndex (Leaflet.this s))) s').
Proof.
  induction xs as [|x xs IH]; intros s Hwf Hall.
  { exists s. split; [reflexivity|]. split; [exact Hwf|].
    split; [reflexivity|]. split; [reflexivity|].
    split; [simpl; lia|]. intros Hne. by destruct Hne. }
  apply Forall_cons in Hall as [[Hid Hdraw] Hall].
  destruct (addSatellite_drawable x s Hdraw) as (s1 & Hrun1 & _).
  destruct (addSatellite_trail x s s1 Hwf Hid Hdraw Hrun1)
    as (Hwf1 & Hhref1 & Hidx1 & Hrec1 & Htrail1).
  destruct (IH s1 Hwf1 Hall) as (s' & Hrun & Hwf' & Hhref & Hidx & Hlen & Htrail).
  exists s'. split.
  { simpl. unfold mbind, M_bind, bind. by rewrite Hrun1. }
  split; [done|]. split; [congruence|]. split; [congruence|]. split.
  { rewrite Hlen, Hrec1, length_app. simpl. lia. }
  intros _. destruct xs as [|y ys].
  - simpl in Hrun. injection Hrun as <-. exact Htrail1.
  - rewrite <- Hhref1, <- Hidx1. by apply Htrail.
Qed.

End Sequence.

(** C1, as stated, fails: after two [addSatellite(iss)] on a new view the
    registry holds two records for the identifier of [iss], not one; the
    older one shows the dot and the newer one does not. *)
Lemma addSatellite_twice_two_records :
  fst (addAll [iss; iss] view0) = Normal This ∧
  records_for (Satellite.id iss) (Leaflet.markers (Leaflet.this (snd (addAll [iss; iss] view0))))
    = [Leaflet.mkRecord 25544 0%nat; Leaflet.mkRecord 25544 1%nat] ∧
  length (records_for (Satellite.id iss)
            (Leaflet.markers (Leaflet.this (snd (addAll [iss; iss] view0))))) ≠ 1%nat ∧
  visual (snd (addAll [iss; iss] view0)) (Leaflet.mkRecord 25544 0%nat) = Leaflet.icons_dot ∧
  visual (snd (addAll [iss; iss] view0)) (Leaflet.mkRecord 25544 1%nat) ≠ Leaflet.icons_dot.
Proof.
  split; [reflexivity|]. split; [reflexivity|]. split; [|split].
  - vm_compute. discriminate.
  - reflexivity.
  - vm_compute. discriminate.
Qed.

(** C1, amended: a sequence of [addSatellite] calls with satellites that
    carry the same identifier (and have the fields the method reads)
    returns normally and adds one record for the identifier per call, so
    a view that had none holds as many as there were calls.  After at
    least one call, the newest record is the last entry of the registry
    and shows the satellite icon, not the dot; every older record for the
    identifier shows the dot. *)
Theorem addSatellite_sequence_leaves_trail (i : Z) (xs : list Satellite.t) (s : Leaflet.State) :
  well_formed s →
  Forall (λ x, Satellite.id x = i ∧ drawable x = true) xs →
  let s' := snd (addAll xs s) in
  fst (addAll xs s) = Normal This ∧
  length (records_for i (Leaflet.markers (Leaflet.this s')))
    = (length (records_for i (Leaflet.markers (Leaflet.this s))) + length xs)%nat ∧
  (xs ≠ [] →
   ∃ older newest,
     Leaflet.markers (Leaflet.this s') = older ++ [newest] ∧
     Leaflet.id newest = i ∧
     visual s' newest
       = Leaflet.satelliteIcon (Leaflet.href s) (Leaflet.satelliteIndex (Leaflet.this s)) ∧
     visual s' newest ≠ Leaflet.icons_dot ∧
     Forall (λ r, Leaflet.id r = i → visual s' r = Leaflet.icons_dot) older).
Proof.
  intros Hwf Hall s'. subst s'.
  destruct (addAll_trail i xs s Hwf Hall) as (s' & -> & _ & _ & _ & Hlen & Htrail).
  simpl. split; [done|]. split; [exact Hlen|]. exact Htrail.
Qed.

Lemma addSatellite_sequence_leaves_trail_witness :
  well_formed view0 ∧
  length (records_for 25544
            (Leaflet.markers (Leaflet.this (snd (addAll [iss; iss; iss] view0))))) = 3%nat.
Proof.
  assert (Hwf : well_formed view0) by constructor.
  assert (Hall : Forall (λ x, Satellite.id x = 25544 ∧ drawable x = true) [iss; iss; iss])
    by (repeat constructor).
  destruct (addSatellite_sequence_leaves_trail 25544 [iss; iss; iss] view0 Hwf Hall)
    as (_ & Hlen & _).
  split; [exact Hwf|]. rewrite Hlen. reflexivity.
Defined.

(** ** Well-formedness is an invariant of the view *)

Lemma well_formed_new (lat lon : Q) (zoom : Z) (store : L.Store) (href : string) :
  well_formed (Leaflet.new lat lon zoom store href).
Proof. constructor. Qed.

Lemma well_formed_addSatellite (x : Satellite.t) (s : Leaflet.State) :
  well_formed s → well_formed (snd (Leaflet.addSatellite x s)).
Proof.
  intros Hwf.
  assert (Hgrow : ∀ n, (L.next (Leaflet.heap s) ≤ n)%nat →
            Forall (λ r, (Leaflet.marker r < n)%nat) (Leaflet.markers (Leaflet.this s))).
  { intros n Hn. eapply Forall_impl; [exact Hwf|]. simpl. lia. }
  unfold Leaflet.addSatellite, mbind, M_bind, bind, gets. cbn beta iota.
  rewrite demote_step.
  pose proof (demote_next (records_for (Satellite.id x) (Leaflet.markers (Leaflet.this s)))
                (Leaflet.heap s)) as Hnext.
  destruct x as [xid ? xname xalt ? ? xlat xlon ? ? ? xunits xvel ? ? ? ? ? ?].
  simpl in Hnext.
  destruct xlat, xlon, xname, xalt, xvel, xunits; simpl; unfold well_formed; simpl;
    rewrite ?Hnext;
    try (apply Forall_app; split; [|apply Forall_singleton; simpl; lia]);
    apply Hgrow; lia.
Qed.

Lemma well_formed_removeSatellite (x : Satellite.t) (s : Leaflet.State) :
  well_formed s → well_formed (snd (Leaflet.removeSatellite x s)).
Proof.
  intros Hwf.
  destruct (registry_split (Satellite.id x) (Leaflet.markers (Leaflet.this s)))
    as [Habsent | (l1 & r & l2 & Hreg & Hl1 & Hr)].
  - by rewrite (removeSatellite_absent x s Habsent).
  - rewrite (removeSatellite_first x s l1 r l2 Hreg Hl1 Hr).
    unfold well_formed in *. simpl. rewrite Hreg in Hwf.
    apply Forall_app in Hwf as [H1 H2]. apply Forall_cons in H2 as [_ H2].
    by apply Forall_app.
Qed.

Lemma well_formed_zoomToSatellite (x : Satellite.t) (s : Leaflet.State) :
  well_formed s → well_formed (snd (Leaflet.zoomToSatellite x s)).
Proof.
  intros Hwf.
  destruct (Leaflet.find (Satellite.id x) (Leaflet.markers (Leaflet.this s))) as [r|] eqn:Hfound.
  - by rewrite (zoomToSatellite_found x s r Hfound).
  - apply find_None in Hfound. by rewrite (zoomToSatellite_absent x s Hfound).
Qed.

(** *** The refresh tick *)

(** A tick whose fetch is answered 404 still reaches [addSatellite], with
    the position of the last successful fetch: the registry gets one more
    record and the older one turns into a dot. *)
Example tick_after_failed_fetch :
  let '(c, (p, v)) := updateTick (Resolved not_found) (page2, view1) in
  c = Normal This ∧
  Satellite.errorCode (Satellite.this p) = Some 404 ∧
  Leaflet.markers (Leaflet.this v)
    = [Leaflet.mkRecord 25544 0%nat; Leaflet.mkRecord 25544 1%nat] ∧
  visual v (Leaflet.mkRecord 25544 0%nat) = Leaflet.icons_dot.
Proof. repeat split; reflexivity. Qed.

(** * Further properties of the code *)

(** ** [addSatellite] and [replaceSatelliteWithDot] *)

Lemma drawable_spec (x : Satellite.t) :
  drawable x = true ↔
  is_Some (Satellite.latitude x) ∧ is_Some (Satellite.longitude x) ∧
  is_Some (Satellite.name x) ∧ is_Some (Satellite.altitude x) ∧
  is_Some (Satellite.velocity x) ∧ is_Some (Satellite.units x).
Proof.
  unfold drawable. rewrite !andb_true_iff, !bool_decide_eq_true. tauto.
Qed.

Lemma demote_cell (ms : list Leaflet.MarkerRecord) (h : L.Store) (k : L.handle) :
  L.cells (demote ms h) k =
    if decide (k ∈ Leaflet.marker <$> ms)
    then with_icon Leaflet.icons_dot (L.cells h k) else L.cells h k.
Proof.
  revert h. induction ms as [|m ms IH]; intros h.
  - simpl. destruct (decide (k ∈ [])) as [Hin|]; [|done]. by apply elem_of_nil in Hin.
  - change (demote (m :: ms) h)
      with (demote ms (L.setIcon (Leaflet.marker m) Leaflet.icons_dot h)).
    rewrite IH, fmap_cons.
    assert (L.cells (L.setIcon (Leaflet.marker m) Leaflet.icons_dot h) k =
              if decide (k = Leaflet.marker m)
              then with_icon Leaflet.icons_dot (L.cells h k) else L.cells h k) as ->
      by reflexivity.
    destruct (decide (k ∈ Leaflet.marker <$> ms)) as [Hin|Hnin],
      (decide (k = Leaflet.marker m)) as [Heq|Hne],
      (decide (k ∈ Leaflet.marker m :: (Leaflet.marker <$> ms))) as [Hc|Hc];
      try reflexivity; exfalso; rewrite elem_of_cons in Hc; tauto.
Qed.

(** X1. [addSatellite] returns normally exactly when the satellite has a
    latitude, a longitude, a name, an altitude, a velocity and units; a
    missing visibility or timestamp does not make it throw. *)
Theorem addSatellite_succeeds_iff (x : Satellite.t) (s : Leaflet.State) :
  (fst (Leaflet.addSatellite x s) = Normal This ↔
   is_Some (Satellite.latitude x) ∧ is_Some (Satellite.longitude x) ∧
   is_Some (Satellite.name x) ∧ is_Some (Satellite.altitude x) ∧
   is_Some (Satellite.velocity x) ∧ is_Some (Satellite.units x)) ∧
  (throws (fst (Leaflet.addSatellite x s)) ↔ drawable x = false).
Proof.
  rewrite <- drawable_spec. destruct (drawable x) eqn:Hdraw.
  - destruct (addSatellite_drawable x s Hdraw) as (s' & -> & _). simpl. split; split; done.
  - pose proof (addSatellite_not_drawable x s Hdraw) as Hthrow.
    destruct (fst (Leaflet.addSatellite x s)); [done|]. split; split; done.
Qed.

Section AddOne.

Variables (x : Satellite.t) (s : Leaflet.State).

Let fresh : L.handle := L.next (Leaflet.heap s).

(** The state in which the body of [addSatellite] continues after its
    first statement. *)
Lemma addSatellite_unfold :
  Leaflet.addSatellite x s =
    (ic ← gets (λ s, Leaflet.satelliteIcon (Leaflet.href s)
                       (Leaflet.satelliteIndex (Leaflet.this s)));
     mapMarker ← (λ s, let '(c, h) := L.marker (Satellite.latitude x) (Satellite.longitude x)
                                        ic (Satellite.name x) true 250 (Leaflet.heap s) in
                       (c, Leaflet.with_heap (λ _, h) s));
     modify (Leaflet.with_map (L.addLayer mapMarker));;
     content ← Leaflet.popupContent x;
     modify (Leaflet.with_heap (L.bindPopup mapMarker content));;
     modify (Leaflet.with_markers
               (λ l, l ++ [Leaflet.mkRecord (Satellite.id x) mapMarker]));;
     mret This)
      (Leaflet.with_heap
         (demote (records_for (Satellite.id x) (Leaflet.markers (Leaflet.this s)))) s).
Proof.
  unfold Leaflet.addSatellite at 1. unfold mbind at 1 2, M_bind at 1 2, bind at 1 2, gets at 1.
  cbn beta iota. by rewrite demote_step.
Qed.

Lemma addSatellite_no_coordinates :
  Satellite.latitude x = None ∨ Satellite.longitude x = None →
  Leaflet.addSatellite x s =
    (Throw (Error "Invalid LatLng object"),
     Leaflet.with_heap
       (demote (records_for (Satellite.id x) (Leaflet.markers (Leaflet.this s)))) s).
Proof.
  intros Hmissing. rewrite addSatellite_unfold.
  unfold mbind, M_bind, bind, gets. cbn beta iota.
  destruct (Satellite.latitude x), (Satellite.longitude x);
    try (by destruct Hmissing); by destruct s.
Qed.

Lemma addSatellite_cells_elsewhere (k : L.handle) :
  k ≠ fresh → k ∉ handles_for (Satellite.id x) s →
  L.cells (Leaflet.heap (snd (Leaflet.addSatellite x s))) k = L.cells (Leaflet.heap s) k.
Proof.
  intros Hfresh Hother. subst fresh. rewrite addSatellite_unfold.
  pose proof (demote_cell (records_for (Satellite.id x) (Leaflet.markers (Leaflet.this s)))
                (Leaflet.heap s) k) as Hcell.
  rewrite decide_False in Hcell by exact Hother.
  pose proof (demote_next (records_for (Satellite.id x) (Leaflet.markers (Leaflet.this s)))
                (Leaflet.heap s)) as Hnext.
  unfold mbind, M_bind, bind, gets. cbn beta iota.
  destruct x as [xid ? xname xalt ? ? xlat xlon ? ? ? xunits xvel ? ? ? ? ? ?].
  simpl in Hcell, Hnext.
  destruct xlat, xlon, xname, xalt, xvel, xunits; simpl;
    rewrite ?Hnext, ?decide_False by done; exact Hcell.
Qed.

End AddOne.

Section AddOutcome.

Variables (x : Satellite.t) (s : Leaflet.State).

Let fresh : L.handle := L.next (Leaflet.heap s).
Let icon : L.Icon :=
  Leaflet.satelliteIcon (Leaflet.href s) (Leaflet.satelliteIndex (Leaflet.this s)).

Lemma addSatellite_success la lo n a v u :
  Satellite.latitude x = Some la → Satellite.longitude x = Some lo →
  Satellite.name x = Some n → Satellite.altitude x = Some a →
  Satellite.velocity x = Some v → Satellite.units x = Some u →
  ∃ s', Leaflet.addSatellite x s = (Normal This, s') ∧
    Leaflet.this s' =
      Leaflet.mk (L.addLayer fresh (Leaflet.map (Leaflet.this s)))
                 (Leaflet.markers (Leaflet.this s) ++ [Leaflet.mkRecord (Satellite.id x) fresh])
                 (Leaflet.satelliteIndex (Leaflet.this s)) ∧
    Leaflet.href s' = Leaflet.href s ∧
    L.next (Leaflet.heap s') = S fresh ∧
    L.cells (Leaflet.heap s') fresh =
      L.mkMarker (L.latLng la lo) icon (Some n) true 250
        (Some (L.popup (toUpperCase n) la lo a v (units_at0 u)
                 (Satellite.visibility x) (Satellite.timestamp x))).
Proof.
  intros Hla Hlo Hn Ha Hv Hu. subst fresh icon. rewrite addSatellite_unfold.
  pose proof (demote_next (records_for (Satellite.id x) (Leaflet.markers (Leaflet.this s)))
                (Leaflet.heap s)) as Hnext.
  unfold mbind, M_bind, bind, gets. cbn beta iota.
  destruct x as [xid ? xname xalt ? ? xlat xlon ? ? ? xunits xvel ? ? ? ? ? ?].
  simpl in *. subst. simpl. rewrite Hnext.
  eexists. split; [reflexivity|]. simpl.
  split; [done|]. split; [done|]. split; [done|].
  by rewrite !decide_True.
Qed.

Lemma addSatellite_popup_failure la lo :
  Satellite.latitude x = Some la → Satellite.longitude x = Some lo →
  Satellite.name x = None ∨ Satellite.altitude x = None ∨
  Satellite.velocity x = None ∨ Satellite.units x = None →
  ∃ msg s', Leaflet.addSatellite x s = (Throw (TypeError msg), s') ∧
    Leaflet.this s' =
      Leaflet.mk (L.addLayer fresh (Leaflet.map (Leaflet.this s)))
                 (Leaflet.markers (Leaflet.this s))
                 (Leaflet.satelliteIndex (Leaflet.this s)) ∧
    L.next (Leaflet.heap s') = S fresh ∧
    L.cells (Leaflet.heap s') fresh =
      L.mkMarker (L.latLng la lo) icon (Satellite.name x) true 250 None.
Proof.
  intros Hla Hlo Hmissing. subst fresh icon. rewrite addSatellite_unfold.
  pose proof (demote_next (records_for (Satellite.id x) (Leaflet.markers (Leaflet.this s)))
                (Leaflet.heap s)) as Hnext.
  unfold mbind, M_bind, bind, gets. cbn beta iota.
  destruct x as [xid ? xname xalt ? ? xlat xlon ? ? ? xunits xvel ? ? ? ? ? ?].
  simpl in *. subst.
  destruct xname, xalt, xvel, xunits; simpl;
    try (exfalso; destruct Hmissing as [|[|[|]]]; discriminate);
    rewrite Hnext; eexists _, _; (split; [reflexivity|]); simpl;
    rewrite ?decide_True by done; done.
Qed.

End AddOutcome.

Lemma view_inv_fresh (s : Leaflet.State) :
  view_inv s →
  (L.next (Leaflet.heap s) ∉ L.layers (Leaflet.map (Leaflet.this s))) ∧
  L.addLayer (L.next (Leaflet.heap s)) (Leaflet.map (Leaflet.this s)) =
    L.mkMap (L.center (Leaflet.map (Leaflet.this s))) (L.zoom (Leaflet.map (Leaflet.this s)))
            (L.minZoom (Leaflet.map (Leaflet.this s))) (L.maxZoom (Leaflet.map (Leaflet.this s)))
            (L.tiles (Leaflet.map (Leaflet.this s)))
            (L.layers (Leaflet.map (Leaflet.this s)) ++ [L.next (Leaflet.heap s)]).
Proof.
  intros (Hwf & _ & Hsync).
  assert (L.next (Leaflet.heap s) ∉ L.layers (Leaflet.map (Leaflet.this s))) as Hnot.
  { rewrite Hsync. intros Hin. apply list_elem_of_fmap in Hin as (r & Hr & Hin).
    unfold well_formed in Hwf. rewrite Forall_forall in Hwf. specialize (Hwf r Hin). lia. }
  split; [exact Hnot|]. unfold L.addLayer. by rewrite decide_False.
Qed.

Lemma view_inv_added (s s' : Leaflet.State) (i : Z) :
  view_inv s →
  Leaflet.this s' =
    Leaflet.mk (L.addLayer (L.next (Leaflet.heap s)) (Leaflet.map (Leaflet.this s)))
               (Leaflet.markers (Leaflet.this s) ++ [Leaflet.mkRecord i (L.next (Leaflet.heap s))])
               (Leaflet.satelliteIndex (Leaflet.this s)) →
  L.next (Leaflet.heap s') = S (L.next (Leaflet.heap s)) →
  view_inv s'.
Proof.
  intros Hinv Hthis Hnext.
  destruct (view_inv_fresh s Hinv) as [Hnot Hlayers].
  destruct Hinv as (Hwf & Hnodup & Hsync).
  unfold view_inv, well_formed. rewrite Hthis, Hnext, Hlayers. simpl.
  rewrite fmap_app. simpl. split; [|split].
  - apply Forall_app. split.
    + eapply Forall_impl; [exact Hwf|]. simpl. lia.
    + apply Forall_singleton. simpl. lia.
  - apply NoDup_app. split; [exact Hnodup|]. split; [|apply NoDup_singleton].
    intros h Hh Hin. apply list_elem_of_singleton in Hin as ->.
    rewrite <- Hsync in Hh. done.
  - by rewrite Hsync.
Qed.

(** X2. On a view that shows exactly its registry, a successful
    [addSatellite] creates one marker at the satellite's coordinates, with
    the satellite icon of the current index, the name as title and the
    popup built from the satellite; puts it on the widget as the last
    layer; appends its record to the registry; and leaves the centre, the
    zoom and the tile layers of the widget as they were.  The view still
    shows exactly its registry afterwards. *)
Theorem addSatellite_places_marker (x : Satellite.t) (s : Leaflet.State) la lo n a v u :
  view_inv s →
  Satellite.latitude x = Some la → Satellite.longitude x = Some lo →
  Satellite.name x = Some n → Satellite.altitude x = Some a →
  Satellite.velocity x = Some v → Satellite.units x = Some u →
  let s' := snd (Leaflet.addSatellite x s) in
  let fresh := L.next (Leaflet.heap s) in
  fst (Leaflet.addSatellite x s) = Normal This ∧
  L.cells (Leaflet.heap s') fresh =
    L.mkMarker (L.latLng la lo)
      (Leaflet.satelliteIcon (Leaflet.href s) (Leaflet.satelliteIndex (Leaflet.this s)))
      (Some n) true 250
      (Some (L.popup (toUpperCase n) la lo a v (units_at0 u)
               (Satellite.visibility x) (Satellite.timestamp x))) ∧
  Leaflet.markers (Leaflet.this s')
    = Leaflet.markers (Leaflet.this s) ++ [Leaflet.mkRecord (Satellite.id x) fresh] ∧
  L.layers (Leaflet.map (Leaflet.this s')) = L.layers (Leaflet.map (Leaflet.this s)) ++ [fresh] ∧
  L.center (Leaflet.map (Leaflet.this s')) = L.center (Leaflet.map (Leaflet.this s)) ∧
  L.zoom (Leaflet.map (Leaflet.this s')) = L.zoom (Leaflet.map (Leaflet.this s)) ∧
  L.tiles (Leaflet.map (Leaflet.this s')) = L.tiles (Leaflet.map (Leaflet.this s)) ∧
  view_inv s'.
Proof.
  intros Hinv Hla Hlo Hn Ha Hv Hu s' fresh. subst s' fresh.
  destruct (addSatellite_success x s la lo n a v u Hla Hlo Hn Ha Hv Hu)
    as (s' & -> & Hthis & _ & Hnext & Hcell).
  pose proof (view_inv_added s s' _ Hinv Hthis Hnext) as Hinv'.
  destruct (view_inv_fresh s Hinv) as [_ Hlayers].
  cbn [fst snd]. rewrite Hthis, Hlayers. simpl. done.
Qed.

Lemma addSatellite_places_marker_witness :
  view_inv view0 ∧
  L._latlng (L.cells (Leaflet.heap (snd (Leaflet.addSatellite iss view0))) 0%nat)
    = L.latLng (512 # 10) (-1 # 10) ∧
  L.layers (Leaflet.map (Leaflet.this (snd (Leaflet.addSatellite iss view0)))) = [0%nat].
Proof.
  assert (Hinv : view_inv view0).
  { split; [constructor|]. split; [constructor | reflexivity]. }
  destruct (addSatellite_places_marker iss view0 (512 # 10)%Q (-1 # 10)%Q "iss" (420 # 1)%Q
              (27000 # 1)%Q (UnitsString "kilometers") Hinv
              eq_refl eq_refl eq_refl eq_refl eq_refl eq_refl)
    as (_ & Hcell & _ & Hlayers & _).
  split; [exact Hinv|]. split; [exact (f_equal L._latlng Hcell) | exact Hlayers].
Defined.

(** X3. Without a latitude or a longitude [addSatellite] throws the
    coordinate error before a marker exists: the registry, the widget and
    the store's allocation are as before.  The records already held for
    the identifier have been turned into dots all the same, because that
    happens first. *)
Theorem addSatellite_without_coordinates (x : Satellite.t) (s : Leaflet.State) :
  Satellite.latitude x = None ∨ Satellite.longitude x = None →
  let s' := snd (Leaflet.addSatellite x s) in
  fst (Leaflet.addSatellite x s) = Throw (Error "Invalid LatLng object") ∧
  Leaflet.this s' = Leaflet.this s ∧
  L.next (Leaflet.heap s') = L.next (Leaflet.heap s) ∧
  ∀ k, L.cells (Leaflet.heap s') k =
         if decide (k ∈ handles_for (Satellite.id x) s)
         then with_icon Leaflet.icons_dot (L.cells (Leaflet.heap s) k)
         else L.cells (Leaflet.heap s) k.
Proof.
  intros Hmissing s'. subst s'. rewrite (addSatellite_no_coordinates x s Hmissing).
  cbn [fst snd]. split; [done|]. split; [done|]. split.
  - apply demote_next.
  - intros k. apply demote_cell.
Qed.

Lemma addSatellite_without_coordinates_witness :
  throws (fst (Leaflet.addSatellite (Satellite.new 25544) view1)) ∧
  Leaflet.markers (Leaflet.this (snd (Leaflet.addSatellite (Satellite.new 25544) view1)))
    = [Leaflet.mkRecord 25544 0%nat] ∧
  visual (snd (Leaflet.addSatellite (Satellite.new 25544) view1)) (Leaflet.mkRecord 25544 0%nat)
    = Leaflet.icons_dot.
Proof.
  destruct (addSatellite_without_coordinates (Satellite.new 25544) view1 (or_introl eq_refl))
    as (Hthrow & Hthis & _ & Hcells).
  split; [by rewrite Hthrow|]. split; [by rewrite Hthis|].
  unfold visual. by rewrite Hcells.
Defined.

(** X4. With coordinates but without a name, an altitude, a velocity or
    units, [addSatellite] throws while it builds the popup text, after the
    marker has been put on the widget: the widget then shows a marker
    that no record of the registry refers to. *)
Theorem addSatellite_leaves_orphan_marker (x : Satellite.t) (s : Leaflet.State) la lo :
  view_inv s →
  Satellite.latitude x = Some la → Satellite.longitude x = Some lo →
  Satellite.name x = None ∨ Satellite.altitude x = None ∨
  Satellite.velocity x = None ∨ Satellite.units x = None →
  let s' := snd (Leaflet.addSatellite x s) in
  let fresh := L.next (Leaflet.heap s) in
  throws (fst (Leaflet.addSatellite x s)) ∧
  Leaflet.markers (Leaflet.this s') = Leaflet.markers (Leaflet.this s) ∧
  L.layers (Leaflet.map (Leaflet.this s')) = L.layers (Leaflet.map (Leaflet.this s)) ++ [fresh] ∧
  L._latlng (L.cells (Leaflet.heap s') fresh) = L.latLng la lo ∧
  fresh ∉ Leaflet.marker <$> Leaflet.markers (Leaflet.this s').
Proof.
  intros Hinv Hla Hlo Hmissing s' fresh. subst s' fresh.
  destruct (addSatellite_popup_failure x s la lo Hla Hlo Hmissing)
    as (msg & s' & -> & Hthis & Hnext & Hcell).
  destruct (view_inv_fresh s Hinv) as [Hnot Hlayers].
  cbn [fst snd]. rewrite Hthis, Hlayers, Hcell. simpl.
  repeat (split; [done|]).
  destruct Hinv as (_ & _ & Hsync). by rewrite <- Hsync.
Qed.

Lemma addSatellite_leaves_orphan_marker_witness :
  throws (fst (Leaflet.addSatellite nameless view0)) ∧
  Leaflet.markers (Leaflet.this (snd (Leaflet.addSatellite nameless view0))) = [] ∧
  L.layers (Leaflet.map (Leaflet.this (snd (Leaflet.addSatellite nameless view0)))) = [0%nat].
Proof.
  assert (Hinv : view_inv view0).
  { split; [constructor|]. split; [constructor | reflexivity]. }
  destruct (addSatellite_leaves_orphan_marker nameless view0 (512 # 10)%Q (-1 # 10)%Q Hinv
              eq_refl eq_refl (or_introl eq_refl))
    as (Hthrow & Hreg & Hlayers & _).
  split; [exact Hthrow|]. split; [exact Hreg | exact Hlayers].
Defined.

Lemma NoDup_fmap_elem_inj {A B} (f : A → B) (l : list A) (a b : A) :
  NoDup (f <$> l) → a ∈ l → b ∈ l → f a = f b → a = b.
Proof.
  induction l as [|c l IH]; intros Hnodup Ha Hb Hab; [by apply elem_of_nil in Ha|].
  rewrite fmap_cons in Hnodup. apply NoDup_cons in Hnodup as [Hc Hnodup].
  apply elem_of_cons in Ha as [->|Ha]; apply elem_of_cons in Hb as [->|Hb].
  - done.
  - destruct Hc. rewrite Hab. by apply list_elem_of_fmap_2.
  - destruct Hc. rewrite <- Hab. by apply list_elem_of_fmap_2.
  - by apply IH.
Qed.

Lemma other_record_not_handled (s : Leaflet.State) (i : Z) (r : Leaflet.MarkerRecord) :
  view_inv s → r ∈ Leaflet.markers (Leaflet.this s) → Leaflet.id r ≠ i →
  Leaflet.marker r ≠ L.next (Leaflet.heap s) ∧ Leaflet.marker r ∉ handles_for i s.
Proof.
  intros (Hwf & Hnodup & _) Hr Hid. split.
  - unfold well_formed in Hwf. rewrite Forall_forall in Hwf. specialize (Hwf r Hr). lia.
  - unfold handles_for, records_for. intros Hin.
    apply list_elem_of_fmap in Hin as (r' & Heq & Hr').
    apply list_elem_of_filter in Hr' as [Hid' Hr'].
    assert (r = r') as <- by (by eapply NoDup_fmap_elem_inj).
    done.
Qed.

(** X5. Whatever its outcome, [addSatellite] leaves the marker of every
    record that carries another identifier exactly as it was (position,
    icon, title and popup), on a view that shows exactly its registry. *)
Theorem addSatellite_spares_other_identifiers (x : Satellite.t) (s : Leaflet.State)
    (r : Leaflet.MarkerRecord) :
  view_inv s →
  r ∈ Leaflet.markers (Leaflet.this s) →
  Leaflet.id r ≠ Satellite.id x →
  L.cells (Leaflet.heap (snd (Leaflet.addSatellite x s))) (Leaflet.marker r)
    = L.cells (Leaflet.heap s) (Leaflet.marker r) ∧
  r ∈ Leaflet.markers (Leaflet.this (snd (Leaflet.addSatellite x s))).
Proof.
  intros Hinv Hr Hid.
  destruct (other_record_not_handled s (Satellite.id x) r Hinv Hr Hid) as [Hfresh Hother].
  split; [by apply addSatellite_cells_elsewhere|].
  rewrite addSatellite_unfold. unfold mbind, M_bind, bind, gets. cbn beta iota.
  destruct x as [xid ? xname xalt ? ? xlat xlon ? ? ? xunits xvel ? ? ? ? ? ?].
  destruct xlat, xlon, xname, xalt, xvel, xunits; simpl;
    try exact Hr; apply elem_of_app; by left.
Qed.

Lemma addSatellite_spares_other_identifiers_witness :
  L.cells (Leaflet.heap (snd (Leaflet.addSatellite hubble view1))) 0%nat
    = L.cells (Leaflet.heap view1) 0%nat.
Proof.
  assert (Hinv : view_inv view1).
  { split; [repeat constructor|]. split; [|reflexivity].
    apply NoDup_singleton. }
  destruct (addSatellite_spares_other_identifiers hubble view1 (Leaflet.mkRecord 25544 0%nat) Hinv)
    as [Hcell _]; [by left | simpl; lia |].
  exact Hcell.
Defined.

(** X6. [replaceSatelliteWithDot] returns the view and changes nothing
    but icons: the registry, the widget and the store's allocation are
    the same; a marker referred to by a record for the identifier gets
    the dot icon and keeps its position, title and popup; every other
    marker is untouched.  With no record for the identifier no marker
    changes. *)
Theorem replaceSatelliteWithDot_changes_icons_only (x : Satellite.t) (s : Leaflet.State) :
  let s' := snd (Leaflet.replaceSatelliteWithDot x s) in
  fst (Leaflet.replaceSatelliteWithDot x s) = Normal This ∧
  Leaflet.this s' = Leaflet.this s ∧
  Leaflet.href s' = Leaflet.href s ∧
  L.next (Leaflet.heap s') = L.next (Leaflet.heap s) ∧
  (∀ k, L.cells (Leaflet.heap s') k =
          if decide (k ∈ handles_for (Satellite.id x) s)
          then L.mkMarker (L._latlng (L.cells (Leaflet.heap s) k)) Leaflet.icons_dot
                 (L.title (L.cells (Leaflet.heap s) k))
                 (L.riseOnHover (L.cells (Leaflet.heap s) k))
                 (L.riseOffset (L.cells (Leaflet.heap s) k))
                 (L._popup (L.cells (Leaflet.heap s) k))
          else L.cells (Leaflet.heap s) k) ∧
  (Forall (λ r, Leaflet.id r ≠ Satellite.id x) (Leaflet.markers (Leaflet.this s)) →
   ∀ k, L.cells (Leaflet.heap s') k = L.cells (Leaflet.heap s) k).
Proof.
  intros s'. subst s'.
  change (Leaflet.replaceSatelliteWithDot x s)
    with (Normal This,
          Leaflet.with_heap
            (demote (records_for (Satellite.id x) (Leaflet.markers (Leaflet.this s)))) s).
  cbn [fst snd]. split; [done|]. split; [done|]. split; [done|].
  split; [apply demote_next|]. split.
  - intros k. apply demote_cell.
  - intros Habsent k. simpl. rewrite (records_for_none _ _ Habsent). done.
Qed.

(** ** The widget and the registry stay in step *)

Lemma filter_all {A} (P : A → Prop) `{∀ a, Decision (P a)} (l : list A) :
  Forall P l → filter P l = l.
Proof.
  induction 1 as [|a l Ha _ IH]; [done|]. by rewrite filter_cons_True, IH.
Qed.

Lemma filter_out_unique (h : L.handle) (l1 l2 : list L.handle) :
  NoDup (l1 ++ h :: l2) → filter (λ k, k ≠ h) (l1 ++ h :: l2) = l1 ++ l2.
Proof.
  intros Hnodup. apply NoDup_app in Hnodup as (_ & Hdisj & Hnodup2).
  apply NoDup_cons in Hnodup2 as [Hh2 _].
  rewrite filter_app, filter_cons_False by (intros Hne; by apply Hne).
  rewrite !filter_all; [done| |].
  - apply Forall_forall. intros k Hk ->. done.
  - apply Forall_forall. intros k Hk ->. apply (Hdisj h Hk). by left.
Qed.

Lemma view_inv_addSatellite (x : Satellite.t) (s : Leaflet.State) :
  drawable x = true → view_inv s → view_inv (snd (Leaflet.addSatellite x s)).
Proof.
  intros Hdraw Hinv. apply drawable_spec in Hdraw
    as ([la Hla] & [lo Hlo] & [n Hn] & [a Ha] & [v Hv] & [u Hu]).
  destruct (addSatellite_success x s la lo n a v u Hla Hlo Hn Ha Hv Hu)
    as (s' & -> & Hthis & _ & Hnext & _).
  by eapply view_inv_added.
Qed.

Lemma view_inv_removeSatellite (x : Satellite.t) (s : Leaflet.State) :
  view_inv s → view_inv (snd (Leaflet.removeSatellite x s)).
Proof.
  intros Hinv.
  destruct (registry_split (Satellite.id x) (Leaflet.markers (Leaflet.this s)))
    as [Habsent | (l1 & r & l2 & Hreg & Hl1 & Hr)].
  { by rewrite (removeSatellite_absent x s Habsent). }
  pose proof (well_formed_removeSatellite x s (proj1 Hinv)) as Hwf'.
  rewrite (removeSatellite_first x s l1 r l2 Hreg Hl1 Hr) in *.
  destruct Hinv as (_ & Hnodup & Hsync).
  rewrite Hreg, fmap_app, fmap_cons in Hnodup, Hsync.
  split; [exact Hwf'|]. cbn [snd]. simpl. rewrite Hsync, fmap_app. split.
  - apply NoDup_app in Hnodup as (H1 & Hdisj & H2). apply NoDup_cons in H2 as [_ H2].
    apply NoDup_app. split; [done|]. split; [|done].
    intros k Hk Hk2. apply (Hdisj k Hk). by right.
  - by apply filter_out_unique.
Qed.

Lemma view_inv_call (c : ViewCall) (s : Leaflet.State) :
  drawable_call c → view_inv s → view_inv (call s c).
Proof.
  intros Hc Hinv. destruct c as [x|x|x|x]; unfold call.
  - by apply view_inv_addSatellite.
  - change (Leaflet.replaceSatelliteWithDot x s)
      with (Normal This,
            Leaflet.with_heap
              (demote (records_for (Satellite.id x) (Leaflet.markers (Leaflet.this s)))) s).
    destruct Hinv as (Hwf & Hnodup & Hsync).
    unfold view_inv, well_formed. simpl. by rewrite demote_next.
  - by apply view_inv_removeSatellite.
  - destruct (Leaflet.find (Satellite.id x) (Leaflet.markers (Leaflet.this s))) as [r|] eqn:Hfound.
    + rewrite (zoomToSatellite_found x s r Hfound). exact Hinv.
    + apply find_None in Hfound. by rewrite (zoomToSatellite_absent x s Hfound).
Qed.

(** X7. Starting from a view that shows exactly its registry (a new view
    does), after any sequence of [addSatellite], [replaceSatelliteWithDot],
    [removeSatellite] and [zoomToSatellite] calls whose added satellites
    have every field the method reads, the marker layers of the widget
    are the markers of the registry, in the same order, and no marker is
    recorded twice. *)
Theorem widget_shows_exactly_the_registry (cs : list ViewCall) (s : Leaflet.State) :
  view_inv s → Forall drawable_call cs →
  L.layers (Leaflet.map (Leaflet.this (calls cs s)))
    = Leaflet.marker <$> Leaflet.markers (Leaflet.this (calls cs s)) ∧
  NoDup (Leaflet.marker <$> Leaflet.markers (Leaflet.this (calls cs s))) ∧
  view_inv (calls cs s).
Proof.
  intros Hinv Hall.
  assert (view_inv (calls cs s)) as Hinv'.
  { revert s Hinv. induction Hall as [|c cs Hc _ IH]; intros s Hinv; [done|].
    simpl. apply IH. by apply view_inv_call. }
  split; [apply Hinv'|]. split; [apply Hinv' | exact Hinv'].
Qed.

Lemma widget_shows_exactly_the_registry_witness :
  view_inv view0 ∧
  L.layers (Leaflet.map (Leaflet.this
    (calls [AddSatellite iss; AddSatellite iss; ZoomToSatellite iss; RemoveSatellite iss;
            RemoveSatellite hubble; AddSatellite iss] view0))) = [1%nat; 2%nat].
Proof.
  assert (Hinv : view_inv view0).
  { split; [constructor|]. split; [constructor | reflexivity]. }
  destruct (widget_shows_exactly_the_registry
              [AddSatellite iss; AddSatellite iss; ZoomToSatellite iss; RemoveSatellite iss;
               RemoveSatellite hubble; AddSatellite iss] view0 Hinv) as (Hlayers & _).
  { repeat constructor. }
  split; [exact Hinv|]. rewrite Hlayers. reflexivity.
Defined.

(** X8. On a view that shows exactly its registry and holds no record for
    the identifier, [addSatellite] followed by [removeSatellite] of the
    same satellite gives back the registry and the whole widget (layers,
    centre, zoom) as they were before the two calls. *)
Theorem add_then_remove_restores_view (x : Satellite.t) (s : Leaflet.State) :
  view_inv s → drawable x = true →
  Forall (λ r, Leaflet.id r ≠ Satellite.id x) (Leaflet.markers (Leaflet.this s)) →
  let s1 := snd (Leaflet.addSatellite x s) in
  fst (Leaflet.addSatellite x s) = Normal This ∧
  fst (Leaflet.removeSatellite x s1) = Normal This ∧
  Leaflet.this (snd (Leaflet.removeSatellite x s1)) = Leaflet.this s.
Proof.
  intros Hinv Hdraw Habsent s1. subst s1.
  apply drawable_spec in Hdraw
    as ([la Hla] & [lo Hlo] & [n Hn] & [a Ha] & [v Hv] & [u Hu]).
  destruct (addSatellite_success x s la lo n a v u Hla Hlo Hn Ha Hv Hu)
    as (s1 & -> & Hthis & _ & _ & _).
  destruct (view_inv_fresh s Hinv) as [Hnot Hlayers].
  cbn [fst snd]. split; [done|].
  rewrite (removeSatellite_first x s1 (Leaflet.markers (Leaflet.this s))
             (Leaflet.mkRecord (Satellite.id x) (L.next (Leaflet.heap s))) [])
    by (by rewrite ?Hthis).
  cbn [fst snd]. split; [done|]. simpl.
  rewrite Hthis. simpl. rewrite Hlayers, app_nil_r. unfold L.removeLayer. simpl.
  rewrite filter_app, filter_cons_False, filter_nil, app_nil_r by (intros Hne; by apply Hne).
  rewrite filter_all by (apply Forall_forall; intros k Hk ->; done).
  by destruct (Leaflet.this s) as [[] ? ?].
Qed.

Lemma add_then_remove_restores_view_witness :
  Leaflet.this (snd (Leaflet.removeSatellite hubble_seen
                       (snd (Leaflet.addSatellite hubble_seen view1))))
    = Leaflet.this view1.
Proof.
  assert (Hinv : view_inv view1).
  { split; [repeat constructor|]. split; [apply NoDup_singleton | reflexivity]. }
  destruct (add_then_remove_restores_view hubble_seen view1 Hinv)
    as (_ & _ & Hthis); [reflexivity | |].
  { apply Forall_singleton. simpl. lia. }
  exact Hthis.
Defined.

(** ** Where [zoomToSatellite] goes after several updates *)

Lemma addSatellite_cells_old (x : Satellite.t) (s : Leaflet.State) (k : L.handle) :
  k ≠ L.next (Leaflet.heap s) →
  L.cells (Leaflet.heap (snd (Leaflet.addSatellite x s))) k =
    L.cells (demote (records_for (Satellite.id x) (Leaflet.markers (Leaflet.this s)))
               (Leaflet.heap s)) k.
Proof.
  intros Hold. rewrite addSatellite_unfold.
  pose proof (demote_next (records_for (Satellite.id x) (Leaflet.markers (Leaflet.this s)))
                (Leaflet.heap s)) as Hnext.
  unfold mbind, M_bind, bind, gets. cbn beta iota.
  destruct x as [xid ? xname xalt ? ? xlat xlon ? ? ? xunits xvel ? ? ? ? ? ?].
  simpl in Hnext.
  destruct xlat, xlon, xname, xalt, xvel, xunits; simpl;
    rewrite ?Hnext, ?decide_False by done; reflexivity.
Qed.

Lemma addSatellite_keeps_position (x : Satellite.t) (s : Leaflet.State) (k : L.handle) :
  (k < L.next (Leaflet.heap s))%nat →
  L._latlng (L.cells (Leaflet.heap (snd (Leaflet.addSatellite x s))) k)
    = L._latlng (L.cells (Leaflet.heap s) k).
Proof.
  intros Hk. rewrite addSatellite_cells_old by lia. rewrite demote_cell.
  by destruct (decide _).
Qed.

Lemma addAll_extends (xs : list Satellite.t) :
  ∀ s, Forall (λ x, drawable x = true) xs →
    ∃ s' more, addAll xs s = (Normal This, s') ∧
      Leaflet.markers (Leaflet.this s') = Leaflet.markers (Leaflet.this s) ++ more ∧
      (L.next (Leaflet.heap s) ≤ L.next (Leaflet.heap s'))%nat ∧
      ∀ k, (k < L.next (Leaflet.heap s))%nat →
           L._latlng (L.cells (Leaflet.heap s') k) = L._latlng (L.cells (Leaflet.heap s) k).
Proof.
  induction xs as [|x xs IH]; intros s Hall.
  { exists s, []. by rewrite app_nil_r. }
  apply Forall_cons in Hall as [Hdraw Hall].
  destruct (addSatellite_drawable x s Hdraw) as (s1 & Hrun1 & Hreg1 & Hnext1 & _).
  pose proof (addSatellite_keeps_position x s) as Hpos1. rewrite Hrun1 in Hpos1.
  destruct (IH s1 Hall) as (s' & more & Hrun & Hreg & Hnext & Hpos).
  exists s', (Leaflet.mkRecord (Satellite.id x) (L.next (Leaflet.heap s)) :: more).
  split; [simpl; unfold mbind, M_bind, bind; by rewrite Hrun1|].
  split; [by rewrite Hreg, Hreg1, <- app_assoc|].
  split; [lia|].
  intros k Hk. rewrite Hpos by lia. by apply Hpos1.
Qed.

(** X9. [zoomToSatellite] goes to the oldest marker: on a view that held
    no record for the identifier, after any number of [addSatellite]
    calls for it the map is centred on the coordinates the satellite had
    at the first of these calls, whatever the coordinates of the later
    ones. *)
Theorem zoomToSatellite_centres_on_oldest (i : Z) (x1 : Satellite.t) (xs : list Satellite.t)
    (y : Satellite.t) (s : Leaflet.State) la lo :
  Forall (λ r, Leaflet.id r ≠ i) (Leaflet.markers (Leaflet.this s)) →
  Forall (λ x, drawable x = true) (x1 :: xs) →
  Satellite.id x1 = i → Satellite.id y = i →
  Satellite.latitude x1 = Some la → Satellite.longitude x1 = Some lo →
  let s' := snd (addAll (x1 :: xs) s) in
  fst (addAll (x1 :: xs) s) = Normal This ∧
  fst (Leaflet.zoomToSatellite y s') = Normal This ∧
  L.center (Leaflet.map (Leaflet.this (snd (Leaflet.zoomToSatellite y s')))) = L.latLng la lo.
Proof.
  intros Habsent Hall Hx1 Hy Hla Hlo s'. subst s'.
  apply Forall_cons in Hall as [Hdraw1 Hall].
  pose proof Hdraw1 as Hfields. apply drawable_spec in Hfields
    as (_ & _ & [n Hn] & [a Ha] & [v Hv] & [u Hu]).
  destruct (addSatellite_success x1 s la lo n a v u Hla Hlo Hn Ha Hv Hu)
    as (s1 & Hrun1 & Hthis1 & _ & Hnext1 & Hcell1).
  destruct (addAll_extends xs s1 Hall) as (s' & more & Hrun & Hreg & _ & Hpos).
  assert (addAll (x1 :: xs) s = (Normal This, s')) as ->.
  { simpl. unfold mbind, M_bind, bind. by rewrite Hrun1. }
  cbn [fst snd]. split; [done|].
  rewrite Hthis1 in Hreg. simpl in Hreg. rewrite <- app_assoc in Hreg. simpl in Hreg.
  rewrite (zoomToSatellite_found y s' (Leaflet.mkRecord i (L.next (Leaflet.heap s)))).
  - cbn [fst snd]. split; [done|]. simpl.
    rewrite Hpos by lia. by rewrite Hcell1.
  - rewrite Hreg, Hy, Hx1. by apply find_first.
Qed.

Lemma zoomToSatellite_centres_on_oldest_witness :
  L.center (Leaflet.map (Leaflet.this
    (snd (Leaflet.zoomToSatellite hubble
            (snd (addAll [hubble_seen;
                          Satellite.set_position
                            (Json.mk 20580 "hst" (540 # 1) (2460000 # 1) (4700 # 1) (10 # 1)
                               (20 # 1) (0 # 1) (0 # 1) (1700000015 # 1)
                               (UnitsString "kilometers") (27300 # 1) "daylight")
                            hubble_seen] view1))))))
    = L.latLng (-285 # 10) (1203 # 10).
Proof.
  refine (proj2 (proj2 (zoomToSatellite_centres_on_oldest 20580 hubble_seen _ hubble view1
                          (-285 # 10)%Q (1203 # 10)%Q _ _ eq_refl eq_refl eq_refl eq_refl))).
  - apply Forall_singleton. simpl. lia.
  - repeat constructor.
Defined.

(** ** More on the fetcher *)

(** X10. A fetch answered with a success status and a well-formed body
    returns the satellite and overwrites the identifier and the twelve
    positional fields with those of the body; it keeps the url (even when
    the identifier changes), the timer handle and the browser, and it
    does not clear the error fields: after an earlier failure
    [errorBool] stays [true]. *)
Theorem fetch_success_overwrites_position (r : Response.t) (json : Json.t) (s : Satellite.State) :
  Response.ok r = true → Response.body r = Some json →
  let o := Satellite.this s in
  let o' := Satellite.this (snd (Satellite.fetchSatellite (Resolved r) s)) in
  fst (Satellite.fetchSatellite (Resolved r) s) = Normal This ∧
  (Satellite.id o' = Json.id json ∧
   Satellite.name o' = Some (Json.name json) ∧
   Satellite.altitude o' = Some (Json.altitude json) ∧
   Satellite.daynum o' = Some (Json.daynum json) ∧
   Satellite.footprint o' = Some (Json.footprint json) ∧
   Satellite.latitude o' = Some (Json.latitude json) ∧
   Satellite.longitude o' = Some (Json.longitude json) ∧
   Satellite.solar_lat o' = Some (Json.solar_lat json) ∧
   Satellite.solar_lon o' = Some (Json.solar_lon json) ∧
   Satellite.timestamp o' = Some (Json.timestamp json) ∧
   Satellite.units o' = Some (Json.units json) ∧
   Satellite.velocity o' = Some (Json.velocity json) ∧
   Satellite.visibility o' = Some (Json.visibility json) ∧
   Satellite.fetchResponse o' = Some json) ∧
  (Satellite.url o' = Satellite.url o ∧
   Satellite.errorBool o' = Satellite.errorBool o ∧
   Satellite.errorCode o' = Satellite.errorCode o ∧
   Satellite.errorText o' = Satellite.errorText o ∧
   Satellite.autoUpdater o' = Satellite.autoUpdater o) ∧
  Satellite.browser (snd (Satellite.fetchSatellite (Resolved r) s)) = Satellite.browser s ∧
  drawable o' = true.
Proof.
  intros Hok Hbody. rewrite (fetch_success_result r json s Hok Hbody). simpl.
  repeat split; reflexivity.
Qed.

Lemma fetch_success_overwrites_position_witness :
  let s := snd (Satellite.fetchSatellite (Resolved not_found) page0) in
  let o' := Satellite.this
              (snd (Satellite.fetchSatellite (Resolved (Response.mk 200 "OK" (Some iss_json))) s)) in
  Satellite.latitude o' = Some (512 # 10)%Q ∧ Satellite.errorBool o' = Some true ∧
  Satellite.errorCode o' = Some 404.
Proof.
  intros s o'. subst o'.
  destruct (fetch_success_overwrites_position (Response.mk 200 "OK" (Some iss_json)) iss_json s
              eq_refl eq_refl) as (_ & Hpos & (_ & Hbool & Hcode & _) & _).
  destruct Hpos as (_ & _ & _ & _ & _ & Hlat & _).
  split; [exact Hlat|]. split; [rewrite Hbool | rewrite Hcode]; reflexivity.
Defined.

(** X11. Successful fetches do not merge: after two of them in a row the
    satellite and the browser are what the second alone would have
    left. *)
Theorem fetch_last_response_wins (r1 r2 : Response.t) (j1 j2 : Json.t) (s : Satellite.State) :
  Response.ok r1 = true → Response.body r1 = Some j1 →
  Response.ok r2 = true → Response.body r2 = Some j2 →
  snd (Satellite.fetchSatellite (Resolved r2) (snd (Satellite.fetchSatellite (Resolved r1) s)))
    = snd (Satellite.fetchSatellite (Resolved r2) s).
Proof.
  intros Hok1 Hbody1 Hok2 Hbody2.
  rewrite (fetch_success_result r1 j1 s Hok1 Hbody1). cbn [snd].
  rewrite !(fetch_success_result r2 j2 _ Hok2 Hbody2). reflexivity.
Qed.

Lemma fetch_last_response_wins_witness :
  Satellite.this
    (snd (Satellite.fetchSatellite (Resolved (Response.mk 200 "OK" (Some hubble_json)))
            (snd (Satellite.fetchSatellite (Resolved (Response.mk 201 "Created" (Some iss_json)))
                    page0))))
    = Satellite.set_position hubble_json (Satellite.new 25544).
Proof.
  rewrite (fetch_last_response_wins (Response.mk 201 "Created" (Some iss_json))
             (Response.mk 200 "OK" (Some hubble_json)) iss_json hubble_json page0
             eq_refl eq_refl eq_refl eq_refl).
  reflexivity.
Defined.

(** X12. [fetchSatellite] throws exactly when the request is rejected or
    a success status comes with a body that does not parse; a non-success
    status never makes it throw.  When it throws, the satellite and the
    browser are unchanged. *)
Theorem fetch_throws_only_without_a_body (fetched : FetchResult) (s : Satellite.State) :
  (throws (fst (Satellite.fetchSatellite fetched s)) ↔
   fetched = Rejected ∨
   ∃ r, fetched = Resolved r ∧ Response.ok r = true ∧ Response.body r = None) ∧
  (throws (fst (Satellite.fetchSatellite fetched s)) →
   snd (Satellite.fetchSatellite fetched s) = s).
Proof.
  destruct fetched as [|r].
  { split; [|done]. split; [by left | done]. }
  destruct (Response.ok r) eqn:Hok.
  - destruct (Response.body r) as [json|] eqn:Hbody.
    + rewrite (fetch_success_result r json s Hok Hbody). simpl. split; [|done].
      split; [done|]. intros [|(r' & [= <-] & _ & Hnone)]; congruence.
    + unfold Satellite.fetchSatellite. rewrite Hok, Hbody. simpl. split; [|done].
      split; [|done]. intros _. right. by exists r.
  - rewrite (fetch_failure_result r s Hok). simpl. split; [|done].
    split; [done|]. intros [|(r' & [= <-] & Hok' & _)]; congruence.
Qed.

(** X13. No fetch, whatever its outcome, touches the refresh timer: the
    timer table, the identifier counter and [autoUpdater] are the same
    afterwards, so a running loop keeps running and a stopped one stays
    stopped. *)
Theorem fetch_never_touches_the_timer (fetched : FetchResult) (s : Satellite.State) :
  let s' := snd (Satellite.fetchSatellite fetched s) in
  Browser.timers (Satellite.browser s') = Browser.timers (Satellite.browser s) ∧
  Browser.nextTimerId (Satellite.browser s') = Browser.nextTimerId (Satellite.browser s) ∧
  Satellite.autoUpdater (Satellite.this s') = Satellite.autoUpdater (Satellite.this s) ∧
  running s' = running s.
Proof.
  destruct fetched as [|r]; [done|].
  destruct (Response.ok r) eqn:Hok.
  - destruct (Response.body r) as [json|] eqn:Hbody.
    + by rewrite (fetch_success_result r json s Hok Hbody).
    + unfold Satellite.fetchSatellite. by rewrite Hok, Hbody.
  - by rewrite (fetch_failure_result r s Hok).
Qed.

(** ** More on the refresh loop *)

(** X14. Every start that passes the guards writes the warning that the
    auto-update was already on to the console, also when the loop was not
    running or had never been started; a stop writes nothing. *)
Theorem start_always_warns (self m : ref) (interval : Z) (s : Satellite.State) :
  1000 ≤ interval →
  Browser.console (Satellite.browser (snd (Satellite.autoUpdate self true interval (Some m) s)))
    = Browser.console (Satellite.browser s)
        ++ [Browser.Warn ("Auto-update already turned on. Restarting at "
                            +:+ pretty interval +:+ "ms.")] ∧
  Browser.console (Satellite.browser (snd (Satellite.autoUpdate self false interval (Some m) s)))
    = Browser.console (Satellite.browser s).
Proof.
  intros Hge. rewrite autoUpdate_start, autoUpdate_stop by done.
  unfold started. simpl. by destruct (Satellite.autoUpdater (Satellite.this s)).
Qed.

Lemma start_always_warns_witness :
  running page1 = false ∧
  Browser.console (Satellite.browser (snd (Satellite.autoUpdate 0%nat true 15000 (Some 0%nat) page1)))
    = [Browser.Warn "Auto-update already turned on. Restarting at 15000ms."].
Proof.
  destruct (start_always_warns 0%nat 0%nat 15000 page1) as [Hwarn _]; [lia|].
  split; [reflexivity | exact Hwarn].
Defined.

(** Case analysis on the [decide] a hypothesis is stuck on. *)
Ltac decide_in H :=
  match type of H with
  | context [decide ?P] => destruct (decide P)
  end.

Lemma ids_fresh_autoUpdate (self : ref) (b : bool) (interval : Z) (map : option ref)
    (s : Satellite.State) :
  ids_fresh s → ids_fresh (snd (Satellite.autoUpdate self b interval map s)).
Proof.
  intros [Hact Hauto].
  destruct (Z.lt_ge_cases interval 1000) as [Hlt | Hge].
  { by rewrite autoUpdate_below_floor. }
  destruct map as [m|]; [|by rewrite autoUpdate_no_map].
  destruct b.
  - rewrite autoUpdate_start by done. cbn [snd].
    destruct (started_autoUpdater self interval m s) as [Ha Hn]. split.
    + intros i t Hi. cbv beta. rewrite Hn. rewrite started_lookup in Hi.
      destruct (decide (Browser.nextTimerId (Satellite.browser s) = i)) as [<-|_]; [lia|].
      decide_in Hi; [done|].
      specialize (Hact i t Hi). simpl in Hact. lia.
    + intros i. rewrite Ha, Hn. intros [= <-]. lia.
  - rewrite autoUpdate_stop by done. cbn [snd]. split.
    + intros i t Hi. cbv beta. simpl in *. rewrite clearInterval_lookup in Hi.
      decide_in Hi; [done|].
      replace (Browser.nextTimerId (Browser.clearInterval _ _))
        with (Browser.nextTimerId (Satellite.browser s))
        by (by destruct (Satellite.autoUpdater (Satellite.this s))).
      exact (Hact i t Hi).
    + intros i Hi. simpl in *.
      replace (Browser.nextTimerId (Browser.clearInterval _ _))
        with (Browser.nextTimerId (Satellite.browser s))
        by (by destruct (Satellite.autoUpdater (Satellite.this s))).
      by apply Hauto.
Qed.

(** X15. A call of [autoUpdate] removes no timer but the one
    [autoUpdater] names: when every active timer was handed out by the
    counter, a timer under any other identifier is still active after the
    call, with its callback and delay, whatever the arguments; and every
    active timer is again one the counter handed out. *)
Theorem autoUpdate_spares_other_timers (self : ref) (b : bool) (interval : Z)
    (map : option ref) (s : Satellite.State) :
  ids_fresh s →
  let s' := snd (Satellite.autoUpdate self b interval map s) in
  (∀ k t, Browser.timers (Satellite.browser s) !! k = Some t →
          Satellite.autoUpdater (Satellite.this s) ≠ Some k →
          Browser.timers (Satellite.browser s') !! k = Some t) ∧
  ids_fresh s'.
Proof.
  intros Hfresh s'. subst s'. split; [|by apply ids_fresh_autoUpdate].
  intros k t Hk Hne. destruct Hfresh as [Hact _].
  destruct (Z.lt_ge_cases interval 1000) as [Hlt | Hge].
  { by rewrite autoUpdate_below_floor. }
  destruct map as [m|]; [|by rewrite autoUpdate_no_map].
  destruct b.
  - rewrite autoUpdate_start by done. cbn [snd]. rewrite started_lookup.
    specialize (Hact k t Hk). simpl in Hact.
    rewrite decide_False by lia. by rewrite decide_False.
  - rewrite autoUpdate_stop by done. simpl.
    rewrite clearInterval_lookup. by rewrite decide_False.
Qed.

Lemma autoUpdate_spares_other_timers_witness :
  Browser.timers (Satellite.browser
    (snd (Satellite.autoUpdate 7%nat true 2000 (Some 0%nat)
            (Satellite.mkState hubble (Satellite.browser page2))))) !! 1%nat
    = Some (Browser.mkTimer (Browser.UpdateTick 0%nat 0%nat) 15000).
Proof.
  assert (Hfresh : ids_fresh (Satellite.mkState hubble (Satellite.browser page2))).
  { split; [|intros i [=]]. intros i t Hi. simpl.
    destruct (decide (i = 1%nat)) as [->|Hne]; [lia|].
    change (Browser.timers _)
      with ({[1%nat := Browser.mkTimer (Browser.UpdateTick 0%nat 0%nat) 15000]}
              : gmap timer_id Browser.Timer) in Hi.
    rewrite lookup_singleton_ne in Hi by done. discriminate Hi. }
  destruct (autoUpdate_spares_other_timers 7%nat true 2000 (Some 0%nat) _ Hfresh) as [Hkeep _].
  apply Hkeep; [reflexivity | discriminate].
Defined.

(** X16. On a stopped loop whose timers were handed out by the counter, a
    start followed by a stop leaves the timer table as it was before the
    two calls, and the loop stopped. *)
Theorem start_then_stop_restores_timers (self m m' : ref) (i1 i2 : Z) (s : Satellite.State) :
  ids_fresh s → running s = false → 1000 ≤ i1 → 1000 ≤ i2 →
  let s1 := snd (Satellite.autoUpdate self true i1 (Some m) s) in
  let s2 := snd (Satellite.autoUpdate self false i2 (Some m') s1) in
  running s1 = true ∧
  Browser.timers (Satellite.browser s2) = Browser.timers (Satellite.browser s) ∧
  running s2 = false.
Proof.
  intros [Hact Hauto] Hstopped H1 H2 s1 s2. subst s1 s2.
  rewrite autoUpdate_start by done. cbn [snd]. rewrite autoUpdate_stop by done. cbn [snd].
  destruct (started_autoUpdater self i1 m s) as [Ha Hn].
  assert (Browser.timers (Satellite.browser s) !! Browser.nextTimerId (Satellite.browser s) = None)
    as Hnone.
  { destruct (_ !! _) as [t|] eqn:Ht; [|done]. specialize (Hact _ t Ht). simpl in Hact. lia. }
  split; [|split].
  - unfold running. rewrite Ha, started_lookup, decide_True by done. done.
  - apply map_eq. intros k. unfold Satellite.with_browser. cbn [Satellite.browser].
    rewrite clearInterval_lookup, Ha, started_lookup.
    destruct (decide (Some (Browser.nextTimerId (Satellite.browser s)) = Some k)) as [[= <-]|Hne].
    + by rewrite Hnone.
    + rewrite decide_False by congruence.
      destruct (decide (Satellite.autoUpdater (Satellite.this s) = Some k)) as [Hk|]; [|done].
      symmetry. exact (proj1 (running_false s) Hstopped k Hk).
  - apply running_false. unfold Satellite.with_browser.
    cbn [Satellite.browser Satellite.this]. intros k Hk.
    rewrite clearInterval_lookup. by rewrite decide_True.
Qed.

Lemma start_then_stop_restores_timers_witness :
  Browser.timers (Satellite.browser
    (snd (Satellite.autoUpdate 0%nat false 1000 (Some 0%nat)
            (snd (Satellite.autoUpdate 0%nat true 15000 (Some 0%nat) page1))))) = ∅.
Proof.
  assert (Hfresh : ids_fresh page1).
  { split; [|intros i [=]]. intros i t Hi. vm_compute in Hi. discriminate Hi. }
  destruct (start_then_stop_restores_timers 0%nat 0%nat 0%nat 15000 1000 page1 Hfresh eq_refl)
    as (_ & Htimers & _); [lia | lia |].
  exact Htimers.
Defined.

(** ** The refresh tick and [destroy] *)

Lemma updateTick_success (r : Response.t) (json : Json.t)
    (p : Satellite.State) (v : Leaflet.State) :
  Response.ok r = true → Response.body r = Some json →
  let res := updateTick (Resolved r) (p, v) in
  fst res = Normal This ∧
  Satellite.this (fst (snd res)) = Satellite.set_position json (Satellite.this p) ∧
  Leaflet.markers (Leaflet.this (snd (snd res)))
    = Leaflet.markers (Leaflet.this v)
        ++ [Leaflet.mkRecord (Json.id json) (L.next (Leaflet.heap v))] ∧
  L._latlng (L.cells (Leaflet.heap (snd (snd res))) (L.next (Leaflet.heap v)))
    = L.latLng (Json.latitude json) (Json.longitude json).
Proof.
  intros Hok Hbody res. subst res. unfold updateTick. cbn [fst snd].
  rewrite (fetch_success_result r json p Hok Hbody). cbn [Satellite.this].
  destruct (addSatellite_success (Satellite.set_position json (Satellite.this p)) v
              (Json.latitude json) (Json.longitude json) (Json.name json) (Json.altitude json)
              (Json.velocity json) (Json.units json) eq_refl eq_refl eq_refl eq_refl eq_refl
              eq_refl) as (v' & -> & Hthis & _ & _ & Hcell).
  cbn [fst snd]. rewrite Hthis, Hcell. done.
Qed.

(** X17. A tick whose fetch is answered with a success status and a
    well-formed body never throws: the satellite takes the position of
    the body and the view gets one more record, under the identifier of
    the body, whose marker stands at the coordinates of the body. *)
Theorem tick_with_fresh_position (r : Response.t) (json : Json.t)
    (p : Satellite.State) (v : Leaflet.State) :
  Response.ok r = true → Response.body r = Some json →
  let res := updateTick (Resolved r) (p, v) in
  fst res = Normal This ∧
  Satellite.this (fst (snd res)) = Satellite.set_position json (Satellite.this p) ∧
  Leaflet.markers (Leaflet.this (snd (snd res)))
    = Leaflet.markers (Leaflet.this v)
        ++ [Leaflet.mkRecord (Json.id json) (L.next (Leaflet.heap v))] ∧
  L._latlng (L.cells (Leaflet.heap (snd (snd res))) (L.next (Leaflet.heap v)))
    = L.latLng (Json.latitude json) (Json.longitude json).
Proof. exact (updateTick_success r json p v). Qed.

Lemma tick_with_fresh_position_witness :
  Leaflet.markers (Leaflet.this (snd (snd
    (updateTick (Resolved (Response.mk 200 "OK" (Some hubble_json))) (page2, view1)))))
    = [Leaflet.mkRecord 25544 0%nat; Leaflet.mkRecord 20580 1%nat].
Proof.
  destruct (tick_with_fresh_position (Response.mk 200 "OK" (Some hubble_json)) hubble_json
              page2 view1 eq_refl eq_refl) as (_ & _ & Hreg & _).
  exact Hreg.
Defined.

(** X18. A tick whose fetch is answered with a non-success status does
    not stop at the error: the satellite gets the error fields, and when
    it still has the fields of an earlier fetch, [addSatellite] runs with
    them, so the view gets one more record whose marker stands at the
    old coordinates. *)
Theorem tick_after_failure_redraws_old_position (r : Response.t)
    (p : Satellite.State) (v : Leaflet.State) la lo :
  Response.ok r = false → drawable (Satellite.this p) = true →
  Satellite.latitude (Satellite.this p) = Some la →
  Satellite.longitude (Satellite.this p) = Some lo →
  let res := updateTick (Resolved r) (p, v) in
  fst res = Normal This ∧
  Satellite.errorBool (Satellite.this (fst (snd res))) = Some true ∧
  Satellite.errorCode (Satellite.this (fst (snd res))) = Some (Response.status r) ∧
  Leaflet.markers (Leaflet.this (snd (snd res)))
    = Leaflet.markers (Leaflet.this v)
        ++ [Leaflet.mkRecord (Satellite.id (Satellite.this p)) (L.next (Leaflet.heap v))] ∧
  L._latlng (L.cells (Leaflet.heap (snd (snd res))) (L.next (Leaflet.heap v)))
    = L.latLng la lo.
Proof.
  intros Hfail Hdraw Hla Hlo res. subst res. unfold updateTick. cbn [fst snd].
  rewrite (fetch_failure_result r p Hfail). cbn [Satellite.this].
  apply drawable_spec in Hdraw as (_ & _ & [n Hn] & [a Ha] & [vel Hv] & [u Hu]).
  destruct (addSatellite_success
              (Satellite.set_error (Response.status r) (Response.statusText r) (Satellite.this p))
              v la lo n a vel u Hla Hlo Hn Ha Hv Hu) as (v' & -> & Hthis & _ & _ & Hcell).
  cbn [fst snd]. rewrite Hthis, Hcell. done.
Qed.

Lemma tick_after_failure_redraws_old_position_witness :
  L._latlng (L.cells (Leaflet.heap (snd (snd (updateTick (Resolved not_found) (page2, view1)))))
               1%nat) = L.latLng (512 # 10) (-1 # 10).
Proof.
  destruct (tick_after_failure_redraws_old_position not_found page2 view1
              (512 # 10)%Q (-1 # 10)%Q eq_refl eq_refl eq_refl eq_refl) as (_ & _ & _ & _ & Hpos).
  exact Hpos.
Defined.

(** X19. [destroy] takes the first record of the satellite off the view
    and nothing else: the satellite, its timer handle and the timer table
    are what they were, so a running loop keeps running, and its next
    tick with a successful fetch puts a record for the satellite back on
    the view. *)
Theorem destroy_does_not_stop_the_loop (p : Satellite.State) (v : Leaflet.State)
    (r : Response.t) (json : Json.t) :
  Response.ok r = true → Response.body r = Some json →
  let after := snd (destroy (p, v)) in
  let res := updateTick (Resolved r) after in
  fst after = p ∧
  running (fst after) = running p ∧
  snd after = snd (Leaflet.removeSatellite (Satellite.this p) v) ∧
  fst res = Normal This ∧
  running (fst (snd res)) = running p ∧
  Leaflet.mkRecord (Json.id json) (L.next (Leaflet.heap v))
    ∈ Leaflet.markers (Leaflet.this (snd (snd res))).
Proof.
  intros Hok Hbody after res.
  assert (after = (p, snd (Leaflet.removeSatellite (Satellite.this p) v))) as Hafter.
  { subst after. unfold destroy. cbn [fst snd].
    by destruct (Leaflet.removeSatellite (Satellite.this p) v) as [[?|?] ?]. }
  assert (Leaflet.heap (snd (Leaflet.removeSatellite (Satellite.this p) v)) = Leaflet.heap v)
    as Hheap.
  { destruct (registry_split (Satellite.id (Satellite.this p)) (Leaflet.markers (Leaflet.this v)))
      as [Habsent | (l1 & r0 & l2 & Hreg & Hl1 & Hr)].
    - by rewrite (removeSatellite_absent _ v Habsent).
    - by rewrite (removeSatellite_first _ v l1 r0 l2 Hreg Hl1 Hr). }
  subst res. rewrite Hafter. cbn [fst snd].
  destruct (updateTick_success r json p
              (snd (Leaflet.removeSatellite (Satellite.this p) v)) Hok Hbody)
    as (Hc & Hthis & Hreg & _).
  split; [done|]. split; [done|]. split; [done|]. split; [exact Hc|]. split.
  - unfold updateTick. cbn [fst snd].
    rewrite (fetch_success_result r json p Hok Hbody).
    by destruct (Leaflet.addSatellite _ _).
  - rewrite Hreg, Hheap. apply elem_of_app. right. by left.
Qed.

Lemma destroy_does_not_stop_the_loop_witness :
  Leaflet.markers (Leaflet.this (snd (snd (destroy (page2, view1))))) = [] ∧
  running (fst (snd (destroy (page2, view1)))) = true ∧
  Leaflet.mkRecord 25544 1%nat ∈
    Leaflet.markers (Leaflet.this (snd (snd
      (updateTick (Resolved (Response.mk 200 "OK" (Some iss_json)))
         (snd (destroy (page2, view1))))))).
Proof.
  destruct (destroy_does_not_stop_the_loop page2 view1 (Response.mk 200 "OK" (Some iss_json))
              iss_json eq_refl eq_refl) as (_ & Hrun & _ & _ & _ & Hback).
  split; [reflexivity|]. split; [exact Hrun | exact Hback].
Defined.

(** ** [changeSatellite] *)

Lemma currentSatelliteNumber_digit (src : string) (d : Z) :
  currentSatelliteNumber src = Some d → 0 ≤ d ≤ 9.
Proof.
  unfold currentSatelliteNumber, parseInt.
  destruct (charAt src _) as [a|]; [|done].
  destruct ((48 <=? Z.of_nat (nat_of_ascii a)) && (Z.of_nat (nat_of_ascii a) <=? 57)) eqn:Hd;
    [|done].
  intros [= <-]. apply andb_true_iff in Hd as [H1 H2]. lia.
Qed.

Lemma newSatelliteNumber_range (d : Z) (leftOrRight : string) :
  0 ≤ d ≤ 9 → 0 ≤ newSatelliteNumber d leftOrRight ≤ 5.
Proof.
  intros Hd. unfold newSatelliteNumber.
  destruct (String.eqb leftOrRight "left");
    repeat match goal with
           | |- context [?a >? ?b] => destruct (Z.gtb_spec a b)
           | |- context [?a <? ?b] => destruct (Z.ltb_spec a b)
           end; lia.
Qed.

Lemma picker_source_read_back (n : Z) (github : bool) :
  0 ≤ n ≤ 5 →
  currentSatelliteNumber
    (if github then "SatTrack/public/satellite" +:+ pretty n +:+ ".png"
     else "../public/satellite" +:+ pretty n +:+ ".png") = Some n.
Proof.
  intros Hn.
  assert (n = 0 ∨ n = 1 ∨ n = 2 ∨ n = 3 ∨ n = 4 ∨ n = 5) as Hcases by lia.
  destruct github; destruct Hcases as [->|[->|[->|[->|[->| ->]]]]]; reflexivity.
Qed.

(** X20. Within the six icons, the two directions of the picker undo each
    other and wrap around: left after right and right after left give the
    number back, left of 0 is 5, right of 5 is 0, and six steps to the
    right return to the start; any direction other than ['left'] counts
    as right. *)
Theorem picker_directions_are_inverse (d : Z) (other : string) :
  0 ≤ d ≤ 5 → String.eqb other "left" = false →
  newSatelliteNumber (newSatelliteNumber d other) "left" = d ∧
  newSatelliteNumber (newSatelliteNumber d "left") other = d ∧
  newSatelliteNumber 0 "left" = 5 ∧
  newSatelliteNumber 5 other = 0 ∧
  Nat.iter 6 (λ n, newSatelliteNumber n other) d = d.
Proof.
  intros Hd Hother.
  assert (d = 0 ∨ d = 1 ∨ d = 2 ∨ d = 3 ∨ d = 4 ∨ d = 5) as Hcases by lia.
  unfold Nat.iter, nat_rect, newSatelliteNumber. rewrite Hother.
  destruct Hcases as [->|[->|[->|[->|[->| ->]]]]]; repeat split; reflexivity.
Qed.

Lemma picker_directions_are_inverse_witness :
  newSatelliteNumber (newSatelliteNumber 5 "right") "left" = 5 ∧
  newSatelliteNumber (newSatelliteNumber 0 "left") "right" = 0.
Proof.
  destruct (picker_directions_are_inverse 5 "right") as (H1 & _); [lia | reflexivity |].
  destruct (picker_directions_are_inverse 0 "right") as (_ & H2 & _); [lia | reflexivity |].
  split; [exact H1 | exact H2].
Defined.

Section ChangeSatellite.

Variables (leftOrRight : string) (p : Page.t) (d : Z).
Hypothesis picker : currentSatelliteNumber (Dom.src (Page.dom p)) = Some d.

Let n : Z := newSatelliteNumber d leftOrRight.
Let github : bool := includes (Leaflet.href (Page.view p)) "github".
Let view1 : Leaflet.State :=
  if github
  then Leaflet.with_this (λ o, Leaflet.mk (Leaflet.map o) (Leaflet.markers o) n) (Page.view p)
  else Page.view p.
Let dom1 : Dom.t :=
  Dom.set_src (if github then "SatTrack/public/satellite" +:+ pretty n +:+ ".png"
               else "../public/satellite" +:+ pretty n +:+ ".png") (Page.dom p).

Lemma changeSatellite_digit :
  changeSatellite leftOrRight p =
    Some (match last (Leaflet.markers (Leaflet.this (Page.view p))) with
          | None =>
              (Throw (TypeError "Cannot read properties of undefined (reading 'marker')"),
               Page.mk (Page.satellite p) view1 dom1)
          | Some r =>
              (Normal Undefined,
               Page.mk (Page.satellite p)
                 (Leaflet.with_heap
                    (L.setIcon (Leaflet.marker r)
                       (L.icon ("../public/satellite" +:+ pretty n +:+ ".png") (50, 50) (-1000)))
                    view1)
                 dom1)
          end).
Proof.
  subst n github view1 dom1. unfold changeSatellite. rewrite picker. simpl.
  destruct (includes (Leaflet.href (Page.view p)) "github"); simpl;
    destruct (last (Leaflet.markers (Leaflet.this (Page.view p)))); reflexivity.
Qed.

End ChangeSatellite.

(** X21. When the picker image carries a digit five characters from the
    end of its source, [changeSatellite] writes a source from which the
    next call reads back exactly the number it has just computed, and that
    number is one of 0 to 5, whatever the digit was, on a github address
    and elsewhere, whether or not the call then throws. *)
Theorem changeSatellite_writes_what_it_reads (leftOrRight : string) (p : Page.t) (d : Z) :
  currentSatelliteNumber (Dom.src (Page.dom p)) = Some d →
  ∃ c p', changeSatellite leftOrRight p = Some (c, p') ∧
    currentSatelliteNumber (Dom.src (Page.dom p')) = Some (newSatelliteNumber d leftOrRight) ∧
    0 ≤ newSatelliteNumber d leftOrRight ≤ 5.
Proof.
  intros Hpicker.
  pose proof (newSatelliteNumber_range d leftOrRight
                (currentSatelliteNumber_digit _ d Hpicker)) as Hrange.
  rewrite (changeSatellite_digit leftOrRight p d Hpicker).
  destruct (last (Leaflet.markers (Leaflet.this (Page.view p)))); eexists _, _;
    (split; [reflexivity|]); (split; [|exact Hrange]); simpl;
    by apply picker_source_read_back.
Qed.

Lemma changeSatellite_writes_what_it_reads_witness :
  ∃ c p', changeSatellite "left" page_local = Some (c, p') ∧
    currentSatelliteNumber (Dom.src (Page.dom p')) = Some 5.
Proof.
  destruct (changeSatellite_writes_what_it_reads "left" page_local 0 eq_refl)
    as (c & p' & Hrun & Hread & _).
  exists c, p'. split; [exact Hrun | exact Hread].
Defined.

(** X22. With a digit in the picker and a registry that is not empty,
    [changeSatellite] returns normally and gives the marker of the last
    record the icon of the new number, always under the relative address
    [../public/], keeping its position, title and popup; no other marker,
    no record, nothing of the widget and nothing of the satellite
    changes.  [satelliteIndex] takes the new number on a github address
    only; elsewhere it keeps its value. *)
Theorem changeSatellite_recolours_newest_marker (leftOrRight : string) (p : Page.t) (d : Z)
    (older : list Leaflet.MarkerRecord) (newest : Leaflet.MarkerRecord) :
  currentSatelliteNumber (Dom.src (Page.dom p)) = Some d →
  Leaflet.markers (Leaflet.this (Page.view p)) = older ++ [newest] →
  let n := newSatelliteNumber d leftOrRight in
  ∃ p', changeSatellite leftOrRight p = Some (Normal Undefined, p') ∧
    L.cells (Leaflet.heap (Page.view p')) (Leaflet.marker newest)
      = with_icon (L.icon ("../public/satellite" +:+ pretty n +:+ ".png") (50, 50) (-1000))
          (L.cells (Leaflet.heap (Page.view p)) (Leaflet.marker newest)) ∧
    (∀ k, k ≠ Leaflet.marker newest →
          L.cells (Leaflet.heap (Page.view p')) k = L.cells (Leaflet.heap (Page.view p)) k) ∧
    Leaflet.markers (Leaflet.this (Page.view p')) = Leaflet.markers (Leaflet.this (Page.view p)) ∧
    Leaflet.map (Leaflet.this (Page.view p')) = Leaflet.map (Leaflet.this (Page.view p)) ∧
    Page.satellite p' = Page.satellite p ∧
    Leaflet.satelliteIndex (Leaflet.this (Page.view p'))
      = (if includes (Leaflet.href (Page.view p)) "github" then n
         else Leaflet.satelliteIndex (Leaflet.this (Page.view p))).
Proof.
  intros Hpicker Hreg n. subst n.
  rewrite (changeSatellite_digit leftOrRight p d Hpicker), Hreg, last_snoc.
  eexists. split; [reflexivity|].
  destruct (includes (Leaflet.href (Page.view p)) "github"); simpl;
    rewrite decide_True by done;
    (split; [done|]); (split; [by intros k Hk; rewrite decide_False|]); done.
Qed.

Lemma changeSatellite_recolours_newest_marker_witness :
  (∃ p', changeSatellite "right" page_local = Some (Normal Undefined, p') ∧
     L.iconUrl (L.m_icon (L.cells (Leaflet.heap (Page.view p')) 0%nat))
       = "../public/satellite1.png" ∧
     Leaflet.satelliteIndex (Leaflet.this (Page.view p')) = 0) ∧
  (∃ p', changeSatellite "right" page_github = Some (Normal Undefined, p') ∧
     L.iconUrl (L.m_icon (L.cells (Leaflet.heap (Page.view p')) 0%nat))
       = "../public/satellite1.png" ∧
     Leaflet.satelliteIndex (Leaflet.this (Page.view p')) = 1).
Proof.
  split.
  - destruct (changeSatellite_recolours_newest_marker "right" page_local 0 []
                (Leaflet.mkRecord 25544 0%nat) eq_refl eq_refl)
      as (p' & Hrun & Hcell & _ & _ & _ & _ & Hindex).
    exists p'. split; [exact Hrun|]. split; [|exact Hindex].
    exact (f_equal (λ m, L.iconUrl (L.m_icon m)) Hcell).
  - destruct (changeSatellite_recolours_newest_marker "right" page_github 0 []
                (Leaflet.mkRecord 25544 0%nat) eq_refl eq_refl)
      as (p' & Hrun & Hcell & _ & _ & _ & _ & Hindex).
    exists p'. split; [exact Hrun|]. split; [|exact Hindex].
    exact (f_equal (λ m, L.iconUrl (L.m_icon m)) Hcell).
Defined.

(** X23. On an empty registry [changeSatellite] throws when it reaches for
    the last marker, after it has already rewritten the source of the
    picker image (and, on a github address, [satelliteIndex]): the picker
    moves although no marker changed. *)
Theorem changeSatellite_on_empty_registry (leftOrRight : string) (p : Page.t) (d : Z) :
  currentSatelliteNumber (Dom.src (Page.dom p)) = Some d →
  Leaflet.markers (Leaflet.this (Page.view p)) = [] →
  let n := newSatelliteNumber d leftOrRight in
  ∃ p', changeSatellite leftOrRight p =
          Some (Throw (TypeError "Cannot read properties of undefined (reading 'marker')"), p') ∧
    currentSatelliteNumber (Dom.src (Page.dom p')) = Some n ∧
    Leaflet.heap (Page.view p') = Leaflet.heap (Page.view p) ∧
    Leaflet.markers (Leaflet.this (Page.view p')) = [] ∧
    Leaflet.satelliteIndex (Leaflet.this (Page.view p'))
      = (if includes (Leaflet.href (Page.view p)) "github" then n
         else Leaflet.satelliteIndex (Leaflet.this (Page.view p))).
Proof.
  intros Hpicker Hreg n. subst n.
  pose proof (newSatelliteNumber_range d leftOrRight
                (currentSatelliteNumber_digit _ d Hpicker)) as Hrange.
  rewrite (changeSatellite_digit leftOrRight p d Hpicker), Hreg.
  eexists. split; [reflexivity|]. simpl.
  split; [by apply picker_source_read_back|].
  by destruct (includes (Leaflet.href (Page.view p)) "github").
Qed.

Lemma changeSatellite_on_empty_registry_witness :
  ∃ p', changeSatellite "right"
          (Page.mk page1 view0 (Dom.initial 15 "http://localhost/public/satellite5.png"))
        = Some (Throw (TypeError "Cannot read properties of undefined (reading 'marker')"), p') ∧
    currentSatelliteNumber (Dom.src (Page.dom p')) = Some 0.
Proof.
  destruct (changeSatellite_on_empty_registry "right"
              (Page.mk page1 view0 (Dom.initial 15 "http://localhost/public/satellite5.png"))
              5 eq_refl eq_refl) as (p' & Hrun & Hread & _).
  exists p'. split; [exact Hrun | exact Hread].
Defined.

Lemma addSatellite_icon_off_github (x : Satellite.t) (v : Leaflet.State) :
  drawable x = true → includes (Leaflet.href v) "github" = false →
  fst (Leaflet.addSatellite x v) = Normal This ∧
  L.m_icon (L.cells (Leaflet.heap (snd (Leaflet.addSatellite x v))) (L.next (Leaflet.heap v)))
    = L.icon ("../public/satellite"
                +:+ pretty (Leaflet.satelliteIndex (Leaflet.this v)) +:+ ".png")
             (50, 50) (-1000).
Proof.
  intros Hdraw Hlocal.
  apply drawable_spec in Hdraw as ([la Hla] & [lo Hlo] & [n Hn] & [a Ha] & [vel Hv] & [u Hu]).
  destruct (addSatellite_success x v la lo n a vel u Hla Hlo Hn Ha Hv Hu)
    as (s' & -> & _ & _ & _ & Hcell).
  cbn [fst snd]. rewrite Hcell. simpl.
  unfold Leaflet.satelliteIcon, Leaflet.satelliteIconUrl. by rewrite Hlocal.
Qed.

(** X24. Off a github address the picker does not reach the markers drawn
    later: after [changeSatellite], an [addSatellite] that succeeds draws
    its marker with the icon of the index the view had before, not with
    the icon just picked. *)
Theorem picked_icon_is_lost_off_github (leftOrRight : string) (p : Page.t) (d : Z)
    (x : Satellite.t) :
  currentSatelliteNumber (Dom.src (Page.dom p)) = Some d →
  includes (Leaflet.href (Page.view p)) "github" = false →
  drawable x = true →
  ∃ c p', changeSatellite leftOrRight p = Some (c, p') ∧
    fst (Leaflet.addSatellite x (Page.view p')) = Normal This ∧
    L.m_icon (L.cells (Leaflet.heap (snd (Leaflet.addSatellite x (Page.view p'))))
                (L.next (Leaflet.heap (Page.view p'))))
      = L.icon ("../public/satellite"
                  +:+ pretty (Leaflet.satelliteIndex (Leaflet.this (Page.view p))) +:+ ".png")
               (50, 50) (-1000).
Proof.
  intros Hpicker Hlocal Hdraw.
  rewrite (changeSatellite_digit leftOrRight p d Hpicker), Hlocal.
  destruct (last (Leaflet.markers (Leaflet.this (Page.view p)))) as [r|];
    eexists _, _; (split; [reflexivity|]); cbn [Page.view].
  - exact (addSatellite_icon_off_github x
             (Leaflet.with_heap
                (L.setIcon (Leaflet.marker r)
                   (L.icon ("../public/satellite"
                              +:+ pretty (newSatelliteNumber d leftOrRight) +:+ ".png")
                      (50, 50) (-1000)))
                (Page.view p)) Hdraw Hlocal).
  - exact (addSatellite_icon_off_github x (Page.view p) Hdraw Hlocal).
Qed.

Lemma picked_icon_is_lost_off_github_witness :
  ∃ c p', changeSatellite "right" page_local = Some (c, p') ∧
    currentSatelliteNumber (Dom.src (Page.dom p')) = Some 1 ∧
    L.iconUrl (L.m_icon (L.cells (Leaflet.heap (snd (Leaflet.addSatellite iss (Page.view p'))))
                           (L.next (Leaflet.heap (Page.view p')))))
      = "../public/satellite0.png".
Proof.
  destruct (picked_icon_is_lost_off_github "right" page_local 0 iss eq_refl eq_refl eq_refl)
    as (c & p' & Hrun & _ & Hicon).
  exists c, p'. split; [exact Hrun|]. split.
  - vm_compute in Hrun. injection Hrun as _ <-. reflexivity.
  - exact (f_equal L.iconUrl Hicon).
Defined.

(** ** The interval input *)

Lemma classList_add_elem (tokens : list string) (tok : string) (d : Dom.t) :
  tok ∈ tokens → tok ∈ Dom.classList (Dom.classList_add tokens d).
Proof.
  unfold Dom.classList_add. simpl. generalize (Dom.classList d).
  induction tokens as [|t ts IH]; intros l Hin; [by apply elem_of_nil in Hin|].
  assert (∀ (ts : list string) (l : list string),
            tok ∈ l → tok ∈ foldl (λ l t, if decide (t ∈ l) then l else l ++ [t]) l ts) as Hkeep.
  { clear. induction ts as [|t ts IH]; intros l Hl; [done|].
    simpl. apply IH. destruct (decide (t ∈ l)); [done|]. apply elem_of_app. by left. }
  simpl. apply elem_of_cons in Hin as [->|Hin]; [|by apply IH].
  apply Hkeep. destruct (decide (t ∈ l)); [done|]. apply elem_of_app. right. by left.
Qed.

Section DomAutoUpdate.

Variables (satellite map : ref) (v : Z) (p : Page.t).

Let fresh : timer_id := Browser.nextTimerId (Satellite.browser (Page.satellite p)).

Lemma domAutoUpdate_in_range :
  5 ≤ v ≤ 60 →
  domAutoUpdate v satellite map p =
    (Normal Undefined,
     Page.mk (started satellite (v * 1000) map (Page.satellite p)) (Page.view p) (Page.dom p)).
Proof.
  intros Hv. unfold domAutoUpdate.
  assert ((v * 1000 >? 60000) || (v * 1000 <? 5000) = false) as ->.
  { apply orb_false_iff. split; [rewrite Z.gtb_ltb|]; apply Z.ltb_ge; lia. }
  unfold mbind, M_bind, bind, Page.lift_satellite.
  rewrite autoUpdate_start by lia. reflexivity.
Qed.

Lemma domAutoUpdate_out_of_range :
  v < 5 ∨ 60 < v →
  domAutoUpdate v satellite map p =
    (Normal Undefined,
     Page.mk
       (Satellite.with_browser
          (λ b, Browser.mk (Browser.timers b) (S (S fresh)) (Browser.console b))
          (Page.satellite p))
       (Page.view p)
       (Dom.print_error
          "Update interval must be between 1 and 60 seconds. Defaulting to 15 seconds."
          (Dom.with_timers
             (λ t, <[S fresh := (Dom.InterruptUpdateReset fresh, 20)]>
                     (<[fresh := (Dom.ResetUpdater satellite map, 5000)]> t))
             (Dom.classList_add ["needs-validation"; "was-validated"] (Page.dom p))))).
Proof.
  intros Hv. subst fresh. unfold domAutoUpdate.
  assert ((v * 1000 >? 60000) || (v * 1000 <? 5000) = true) as ->.
  { apply orb_true_iff. rewrite Z.gtb_ltb, !Z.ltb_lt. lia. }
  reflexivity.
Qed.

End DomAutoUpdate.

(** X25. [domAutoUpdate] with a value of 5 to 60 seconds restarts the
    loop at that many thousand milliseconds and never throws, leaving the
    document alone.  With any other value it does not call [autoUpdate]:
    the satellite and the timers of the loop are as they were (a running
    loop keeps its old interval), the form gets the two validation
    classes, one error line is printed, and the reset (5000 ms) and the
    poll that can cancel it (20 ms) are scheduled; the input keeps the
    rejected value. *)
Theorem domAutoUpdate_restarts_only_in_range (satellite map : ref) (v : Z) (p : Page.t) :
  let p' := snd (domAutoUpdate v satellite map p) in
  let fresh := Browser.nextTimerId (Satellite.browser (Page.satellite p)) in
  fst (domAutoUpdate v satellite map p) = Normal Undefined ∧
  (5 ≤ v ≤ 60 →
   Browser.timers (Satellite.browser (Page.satellite p')) !! fresh
     = Some (Browser.mkTimer (Browser.UpdateTick satellite map) (v * 1000)) ∧
   Satellite.autoUpdater (Satellite.this (Page.satellite p')) = Some fresh ∧
   running (Page.satellite p') = true ∧
   Page.dom p' = Page.dom p ∧ Page.view p' = Page.view p) ∧
  (v < 5 ∨ 60 < v →
   Satellite.this (Page.satellite p') = Satellite.this (Page.satellite p) ∧
   Browser.timers (Satellite.browser (Page.satellite p'))
     = Browser.timers (Satellite.browser (Page.satellite p)) ∧
   running (Page.satellite p') = running (Page.satellite p) ∧
   Dom.timers (Page.dom p') !! fresh = Some (Dom.ResetUpdater satellite map, 5000) ∧
   Dom.timers (Page.dom p') !! S fresh = Some (Dom.InterruptUpdateReset fresh, 20) ∧
   Dom.value (Page.dom p') = Dom.value (Page.dom p) ∧
   "needs-validation" ∈ Dom.classList (Page.dom p') ∧
   "was-validated" ∈ Dom.classList (Page.dom p') ∧
   Dom.console_error (Page.dom p')
     = Dom.console_error (Page.dom p)
         ++ ["Update interval must be between 1 and 60 seconds. Defaulting to 15 seconds."] ∧
   Page.view p' = Page.view p).
Proof.
  intros p' fresh. subst p' fresh.
  destruct (decide (5 ≤ v ≤ 60)) as [Hin|Hout].
  - rewrite (domAutoUpdate_in_range satellite map v p Hin). cbn [fst snd].
    split; [done|]. split; [|intros; lia]. intros _.
    destruct (started_autoUpdater satellite (v * 1000) map (Page.satellite p)) as [Ha _].
    cbn [Page.satellite Page.dom Page.view].
    assert (Browser.timers (Satellite.browser (started satellite (v * 1000) map (Page.satellite p)))
              !! Browser.nextTimerId (Satellite.browser (Page.satellite p))
            = Some (Browser.mkTimer (Browser.UpdateTick satellite map) (v * 1000))) as Hlook
      by (by rewrite started_lookup, decide_True).
    split; [exact Hlook|]. split; [exact Ha|]. split; [|done].
    unfold running. by rewrite Ha, Hlook.
  - rewrite (domAutoUpdate_out_of_range satellite map v p) by lia. cbn [fst snd].
    split; [done|]. split; [intros; lia|]. intros _.
    cbn [Page.satellite Page.dom Page.view].
    split; [done|]. split; [done|]. split; [done|]. split.
    { simpl. rewrite lookup_insert_ne by lia. by rewrite lookup_insert_eq. }
    split; [simpl; by rewrite lookup_insert_eq|]. split; [done|].
    split; [apply classList_add_elem; by left|].
    split; [apply classList_add_elem; right; by left|]. done.
Qed.

Lemma domAutoUpdate_restarts_only_in_range_witness :
  Browser.timers (Satellite.browser (Page.satellite (snd (domAutoUpdate 30 0%nat 0%nat page_local))))
    !! 2%nat = Some (Browser.mkTimer (Browser.UpdateTick 0%nat 0%nat) 30000) ∧
  Browser.timers (Satellite.browser (Page.satellite (snd (domAutoUpdate 3 0%nat 0%nat page_local))))
    = Browser.timers (Satellite.browser page2).
Proof.
  destruct (domAutoUpdate_restarts_only_in_range 0%nat 0%nat 30 page_local) as (_ & Hin & _).
  destruct (domAutoUpdate_restarts_only_in_range 0%nat 0%nat 3 page_local) as (_ & _ & Hout).
  destruct Hin as (Hlook & _); [lia|].
  destruct Hout as (_ & Htimers & _); [lia|].
  split; [exact Hlook | exact Htimers].
Defined.

(** X26. When the reset fires it writes 15 into the input and passes that
    15 to [autoUpdate] as the interval in milliseconds, which the first
    guard refuses: the callback throws, and neither the satellite nor the
    timer table changes, so the loop is not brought to a 15 second
    interval.  The reset itself leaves the page's timers. *)
Theorem reset_never_restarts_the_loop (i : timer_id) (satellite map : ref) (delay : Z)
    (p : Page.t) :
  Dom.timers (Page.dom p) !! i = Some (Dom.ResetUpdater satellite map, delay) →
  let p' := snd (fire i p) in
  fst (fire i p) = Throw (Error "Interval must be at least 1000 milliseconds.") ∧
  Dom.value (Page.dom p') = 15 ∧
  Page.satellite p' = Page.satellite p ∧
  Page.view p' = Page.view p ∧
  Dom.timers (Page.dom p') = delete i (Dom.timers (Page.dom p)).
Proof.
  intros Hi p'. subst p'.
  unfold fire, mbind, M_bind, bind, gets. cbn beta iota. rewrite Hi.
  unfold Page.clearTimer, modify, Page.lift_satellite. cbn beta iota.
  cbn [Page.dom Page.with_dom Dom.value Dom.set_value Page.satellite].
  rewrite autoUpdate_below_floor by lia. by destruct (Page.satellite p).
Qed.

Lemma reset_never_restarts_the_loop_witness :
  throws (fst (fire 2%nat page_rejected)) ∧
  Dom.value (Page.dom (snd (fire 2%nat page_rejected))) = 15 ∧
  Browser.timers (Satellite.browser (Page.satellite (snd (fire 2%nat page_rejected)))) !! 1%nat
    = Some (Browser.mkTimer (Browser.UpdateTick 0%nat 0%nat) 15000).
Proof.
  destruct (reset_never_restarts_the_loop 2%nat 0%nat 0%nat 5000 page_rejected eq_refl)
    as (Hthrow & Hvalue & Hsat & _).
  split; [by rewrite Hthrow|]. split; [exact Hvalue|]. by rewrite Hsat.
Defined.

(** X27. The poll cancels the reset, and itself, only when the input is
    strictly between 5 and 60; at 5 or 60, which [domAutoUpdate] accepts
    as valid, and outside, it changes nothing and the reset stays
    scheduled.  The poll never touches the satellite or the view. *)
Theorem poll_cancels_only_strictly_inside (i reset : timer_id) (delay : Z) (p : Page.t) :
  Dom.timers (Page.dom p) !! i = Some (Dom.InterruptUpdateReset reset, delay) →
  let p' := snd (fire i p) in
  let v := Dom.value (Page.dom p) in
  fst (fire i p) = Normal Undefined ∧
  Page.satellite p' = Page.satellite p ∧ Page.view p' = Page.view p ∧
  (5 < v < 60 → Dom.timers (Page.dom p') = delete i (delete reset (Dom.timers (Page.dom p)))) ∧
  (v ≤ 5 ∨ 60 ≤ v → p' = p).
Proof.
  intros Hi p' v. subst p' v.
  unfold fire, mbind, M_bind, bind, gets. cbn beta iota. rewrite Hi.
  destruct (decide (5 < Dom.value (Page.dom p) < 60)) as [Hin|Hout].
  - assert ((Dom.value (Page.dom p) <? 60) && (Dom.value (Page.dom p) >? 5) = true) as ->.
    { apply andb_true_iff. rewrite Z.gtb_ltb, !Z.ltb_lt. lia. }
    simpl. split; [done|]. split; [done|]. split; [done|]. split; [done|]. intros; lia.
  - assert ((Dom.value (Page.dom p) <? 60) && (Dom.value (Page.dom p) >? 5) = false) as ->.
    { apply andb_false_iff. rewrite Z.gtb_ltb, !Z.ltb_ge. lia. }
    simpl. split; [done|]. split; [done|]. split; [done|]. split; [intros; lia|]. done.
Qed.

Lemma poll_cancels_only_strictly_inside_witness :
  snd (fire 3%nat page_rejected) = page_rejected ∧
  snd (fire 3%nat (Page.with_dom (Dom.set_value 60) page_rejected))
    = Page.with_dom (Dom.set_value 60) page_rejected ∧
  Dom.timers (Page.dom (snd (fire 3%nat (Page.with_dom (Dom.set_value 30) page_rejected)))) = ∅.
Proof.
  destruct (poll_cancels_only_strictly_inside 3%nat 2%nat 20 page_rejected eq_refl)
    as (_ & _ & _ & _ & Hlow).
  destruct (poll_cancels_only_strictly_inside 3%nat 2%nat 20
              (Page.with_dom (Dom.set_value 60) page_rejected) eq_refl)
    as (_ & _ & _ & _ & Hedge).
  destruct (poll_cancels_only_strictly_inside 3%nat 2%nat 20
              (Page.with_dom (Dom.set_value 30) page_rejected) eq_refl)
    as (_ & _ & _ & Hinside & _).
  split; [apply Hlow; simpl; lia|]. split; [apply Hedge; simpl; lia|].
  rewrite Hinside by (simpl; lia). reflexivity.
Defined.

(** X28. The change listener of the earlier revision always restarts the
    loop and never throws: a value of 5 to 60 seconds is taken as it is,
    any other value is replaced by 15 in the input, with one error line,
    and the loop runs at the resulting value times 1000, which lies
    between 5000 and 60000 milliseconds. *)
Theorem main_listener_always_restarts (satellite map : ref) (p : Page.t) :
  let v := Dom.value (Page.dom p) in
  let v' := if decide (5 ≤ v ≤ 60) then v else 15 in
  let p' := snd (main_updateTime_change satellite map p) in
  fst (main_updateTime_change satellite map p) = Normal Undefined ∧
  Dom.value (Page.dom p') = v' ∧
  5000 ≤ v' * 1000 ≤ 60000 ∧
  Page.satellite p' = started satellite (v' * 1000) map (Page.satellite p) ∧
  Browser.timers (Satellite.browser (Page.satellite p'))
    !! Browser.nextTimerId (Satellite.browser (Page.satellite p))
    = Some (Browser.mkTimer (Browser.UpdateTick satellite map) (v' * 1000)).
Proof.
  intros v v' p'. subst v v' p'.
  unfold main_updateTime_change, mbind, M_bind, bind, gets. cbn beta iota.
  destruct (decide (5 ≤ Dom.value (Page.dom p) ≤ 60)) as [Hin|Hout].
  - assert ((Dom.value (Page.dom p) >? 60) || (Dom.value (Page.dom p) <? 5) = false) as ->.
    { apply orb_false_iff. rewrite Z.gtb_ltb, !Z.ltb_ge. lia. }
    unfold mret, M_ret, ret, Page.lift_satellite. cbn beta iota.
    rewrite autoUpdate_start by lia. cbn [fst snd Page.dom Page.satellite].
    split; [done|]. split; [done|]. split; [lia|]. split; [done|].
    by rewrite started_lookup, decide_True.
  - assert ((Dom.value (Page.dom p) >? 60) || (Dom.value (Page.dom p) <? 5) = true) as ->.
    { apply orb_true_iff. rewrite Z.gtb_ltb, !Z.ltb_lt. lia. }
    unfold modify, mret, M_ret, ret, Page.lift_satellite. cbn beta iota.
    cbn [Page.dom Page.with_dom Dom.value Dom.set_value Dom.print_error Page.satellite].
    rewrite autoUpdate_start by lia. cbn [fst snd Page.dom Page.satellite Dom.value].
    split; [done|]. split; [done|]. split; [lia|]. split; [done|].
    by rewrite started_lookup, decide_True.
Qed.

(** ** [mapControl] *)

(** X29. When the first fetch is answered with a non-success status,
    [fetchSatellite] hands [undefined] to [mapControl], whose
    [addSatellite] call then throws: the map is created but holds no
    marker, no refresh timer is scheduled, and no listener is registered,
    so the page stays without satellite and without controls.  The
    satellite object carries the error. *)
Theorem mapControl_stops_on_failed_fetch (r : Response.t) (b : Browser.t) (store : L.Store)
    (href : string) (d : Dom.t) :
  Response.ok r = false →
  let p := snd (mapControl (Resolved r) b store href d) in
  fst (mapControl (Resolved r) b store href d)
    = Throw (TypeError "Cannot read properties of undefined (reading 'latitude')") ∧
  Leaflet.markers (Leaflet.this (Page.view p)) = [] ∧
  L.layers (Leaflet.map (Leaflet.this (Page.view p))) = [] ∧
  Browser.timers (Satellite.browser (Page.satellite p)) = Browser.timers b ∧
  Satellite.autoUpdater (Satellite.this (Page.satellite p)) = None ∧
  Satellite.errorCode (Satellite.this (Page.satellite p)) = Some (Response.status r) ∧
  Dom.listeners (Page.dom p) = Dom.listeners d.
Proof.
  intros Hfail p. subst p.
  unfold mapControl, mbind, M_bind, bind, Page.lift_satellite. cbn [Page.satellite].
  rewrite (fetch_failure_result r _ Hfail). done.
Qed.

Lemma mapControl_stops_on_failed_fetch_witness :
  throws (fst (mapControl (Resolved not_found) Browser.fresh L.empty "http://localhost/"
                 (Dom.initial 15 "http://localhost/public/satellite0.png"))) ∧
  Browser.timers (Satellite.browser (Page.satellite
    (snd (mapControl (Resolved not_found) Browser.fresh L.empty "http://localhost/"
            (Dom.initial 15 "http://localhost/public/satellite0.png"))))) = ∅.
Proof.
  destruct (mapControl_stops_on_failed_fetch not_found Browser.fresh L.empty "http://localhost/"
              (Dom.initial 15 "http://localhost/public/satellite0.png") eq_refl)
    as (Hthrow & _ & _ & Htimers & _).
  split; [by rewrite Hthrow | exact Htimers].
Defined.

(** X30. When the first fetch is answered with a success status and a
    well-formed body, [mapControl] runs to its end: the registry holds one
    record, under the identifier of the body; the map is centred on the
    coordinates of the body at zoom 3; one refresh timer of 15000 ms is
    active and [autoUpdater] names it; the satellite is logged; and the
    three listeners are registered, in the order of the source. *)
Theorem mapControl_draws_and_starts (r : Response.t) (json : Json.t) (b : Browser.t)
    (store : L.Store) (href : string) (d : Dom.t) :
  Response.ok r = true → Response.body r = Some json →
  let p := snd (mapControl (Resolved r) b store href d) in
  fst (mapControl (Resolved r) b store href d) = Normal Undefined ∧
  Leaflet.markers (Leaflet.this (Page.view p))
    = [Leaflet.mkRecord (Json.id json) (L.next store)] ∧
  L.layers (Leaflet.map (Leaflet.this (Page.view p))) = [L.next store] ∧
  L.center (Leaflet.map (Leaflet.this (Page.view p)))
    = L.latLng (Json.latitude json) (Json.longitude json) ∧
  L.zoom (Leaflet.map (Leaflet.this (Page.view p))) = 3 ∧
  Browser.timers (Satellite.browser (Page.satellite p)) !! Browser.nextTimerId b
    = Some (Browser.mkTimer (Browser.UpdateTick 0%nat 0%nat) 15000) ∧
  Satellite.autoUpdater (Satellite.this (Page.satellite p)) = Some (Browser.nextTimerId b) ∧
  Dom.console_log (Page.dom p)
    = Dom.console_log d
        ++ [Satellite.set_autoUpdater (Browser.nextTimerId b)
              (Satellite.set_position json (Satellite.new 25544))] ∧
  Dom.listeners (Page.dom p)
    = Dom.listeners d
        ++ [Dom.mkListener "updateTime" "change" Dom.UpdateTimeChange;
            Dom.mkListener "satellitePickerLeft" "click" Dom.PickerLeftClick;
            Dom.mkListener "satellitePickerRight" "click" Dom.PickerRightClick].
Proof.
  intros Hok Hbody p. subst p.
  set (x := Satellite.set_position json (Satellite.new 25544)).
  set (v0 := Leaflet.new (207502 # 10000) (1147655 # 10000) 3 store href).
  destruct (addSatellite_success x v0 (Json.latitude json) (Json.longitude json)
              (Json.name json) (Json.altitude json) (Json.velocity json) (Json.units json)
              eq_refl eq_refl eq_refl eq_refl eq_refl eq_refl)
    as (v1 & Hadd & Hthis & _ & _ & Hcell).
  change (L.next (Leaflet.heap v0)) with (L.next store) in Hthis, Hcell.
  assert (Leaflet.find (Satellite.id x) (Leaflet.markers (Leaflet.this v1))
          = Some (Leaflet.mkRecord (Json.id json) (L.next store))) as Hfound.
  { rewrite Hthis. by apply (find_first _ []). }
  unfold mapControl, mbind, M_bind, bind, Page.lift_satellite, Page.lift_view, gets.
  cbn [Page.satellite Page.view Page.dom].
  rewrite (fetch_success_result r json _ Hok Hbody).
  cbn [Page.satellite Page.view Page.dom Satellite.this].
  fold x v0. rewrite Hadd. cbn [Page.satellite Page.view Page.dom Satellite.this].
  rewrite (zoomToSatellite_found x v1 _ Hfound).
  cbn [Page.satellite Page.view Page.dom Satellite.this].
  rewrite autoUpdate_start by lia.
  cbn [fst snd Page.satellite Page.view Page.dom Page.with_dom Leaflet.this Leaflet.map
       Leaflet.markers modify mret M_ret ret L.center L.zoom L.layers Leaflet.marker].
  rewrite Hthis, Hcell. simpl.
  split; [done|]. split; [done|]. split; [done|]. split; [done|]. split; [done|].
  split; [by rewrite lookup_insert_eq|]. split; [done|]. split; [done|].
  by rewrite <- !app_assoc.
Qed.

Lemma mapControl_draws_and_starts_witness :
  let p := snd (mapControl (Resolved (Response.mk 200 "OK" (Some iss_json))) Browser.fresh
                  L.empty "http://localhost/"
                  (Dom.initial 15 "http://localhost/public/satellite0.png")) in
  Leaflet.markers (Leaflet.this (Page.view p)) = [Leaflet.mkRecord 25544 0%nat] ∧
  L.center (Leaflet.map (Leaflet.this (Page.view p))) = L.latLng (512 # 10) (-1 # 10) ∧
  running (Page.satellite p) = true.
Proof.
  intros p. subst p.
  destruct (mapControl_draws_and_starts (Response.mk 200 "OK" (Some iss_json)) iss_json
              Browser.fresh L.empty "http://localhost/"
              (Dom.initial 15 "http://localhost/public/satellite0.png") eq_refl eq_refl)
    as (_ & Hreg & _ & Hcentre & _).
  split; [exact Hreg|]. split; [exact Hcentre | reflexivity].
Defined.
